(** * ArogyaSetu: surge dashboard and decision core

    A shallow embedding of [frontend/dashboard.js] (module [Dashboard]) and
    of the surge-prediction / load-balancing core that the dashboard
    consumes (module [Core]).

    The dashboard is JavaScript: its numbers are IEEE doubles, its objects
    are shared and mutated in place, and absent properties read as
    [undefined].  The embedding keeps these three features:

    - a JS number is a [number]: [NaN], the two infinities, or a finite
      value.  Every finite double is a rational and the comparisons of
      doubles are the comparisons of these rationals, so finite values
      are carried as [Q].  Arithmetic follows the IEEE rules for the
      special values and is exact on finite values (the rounding of the
      last bit is not represented; negative zero is identified with zero);
    - a property that may be absent is an [option]; [||] is written out
      with the truthiness of its left operand;
    - arrays and Leaflet layers that are shared live in a store and are
      referred to by their key. *)

From Stdlib Require Import QArith Qround Qabs Lqa.
From stdpp Require Import gmap strings list fin_maps pretty sorting.

Open Scope Q_scope.

#[local] Set Warnings "-clear-no-such-hyp".

(** ** JavaScript numbers *)

Module JsNumber.

Inductive number : Type :=
  | NaN
  | PosInf
  | NegInf
  | Fin (q : Q).

Definition Qpos_b (q : Q) : bool := negb (Qle_bool q 0).
Definition Qzero_b (q : Q) : bool := Qeq_bool q 0.

(** [a >= b] of JS: false as soon as one side is [NaN]. *)
Definition num_geb (a b : number) : bool :=
  match a, b with
  | NaN, _ | _, NaN => false
  | PosInf, _ => true
  | _, NegInf => true
  | NegInf, _ => false
  | _, PosInf => false
  | Fin x, Fin y => Qle_bool y x
  end.

(** [a > b] of JS. *)
Definition num_gtb (a b : number) : bool :=
  match a, b with
  | NaN, _ | _, NaN => false
  | PosInf, PosInf => false
  | PosInf, _ => true
  | NegInf, _ => false
  | Fin _, NegInf => true
  | Fin _, PosInf => false
  | Fin x, Fin y => negb (Qle_bool x y)
  end.

(** The order of the numbers as a proposition: [NaN] is unordered. *)
Definition num_le (a b : number) : Prop :=
  match a, b with
  | NaN, _ | _, NaN => False
  | NegInf, _ => True
  | _, PosInf => True
  | PosInf, _ => False
  | _, NegInf => False
  | Fin x, Fin y => x <= y
  end.

Definition num_lt (a b : number) : Prop :=
  match a, b with
  | NaN, _ | _, NaN => False
  | NegInf, NegInf => False
  | NegInf, _ => True
  | PosInf, _ => False
  | Fin _, PosInf => True
  | Fin _, NegInf => False
  | Fin x, Fin y => x < y
  end.

(** ToBoolean on a number: [0] and [NaN] are falsy. *)
Definition num_truthy (a : number) : bool :=
  match a with
  | NaN => false
  | PosInf | NegInf => true
  | Fin q => negb (Qzero_b q)
  end.

Definition num_neg (a : number) : number :=
  match a with
  | NaN => NaN
  | PosInf => NegInf
  | NegInf => PosInf
  | Fin q => Fin (- q)
  end.

Definition signed_inf (positive : bool) : number :=
  if positive then PosInf else NegInf.

Definition num_add (a b : number) : number :=
  match a, b with
  | NaN, _ | _, NaN => NaN
  | PosInf, NegInf | NegInf, PosInf => NaN
  | PosInf, _ | _, PosInf => PosInf
  | NegInf, _ | _, NegInf => NegInf
  | Fin x, Fin y => Fin (x + y)
  end.

Definition num_sub (a b : number) : number := num_add a (num_neg b).

(** The sign of an infinity multiplied by a finite value. *)
Definition inf_times (positive : bool) (q : Q) : number :=
  if Qzero_b q then NaN
  else signed_inf (if Qpos_b q then positive else negb positive).

Definition num_mul (a b : number) : number :=
  match a, b with
  | NaN, _ | _, NaN => NaN
  | PosInf, PosInf | NegInf, NegInf => PosInf
  | PosInf, NegInf | NegInf, PosInf => NegInf
  | PosInf, Fin q | Fin q, PosInf => inf_times true q
  | NegInf, Fin q | Fin q, NegInf => inf_times false q
  | Fin x, Fin y => Fin (x * y)
  end.

Definition num_div (a b : number) : number :=
  match a, b with
  | NaN, _ | _, NaN => NaN
  | (PosInf | NegInf), (PosInf | NegInf) => NaN
  | PosInf, Fin q => signed_inf (Qle_bool 0 q)
  | NegInf, Fin q => signed_inf (negb (Qle_bool 0 q))
  | Fin _, (PosInf | NegInf) => Fin 0
  | Fin x, Fin y =>
      if Qzero_b y then
        (if Qzero_b x then NaN else signed_inf (Qpos_b x))
      else Fin (x / y)
  end.

Definition of_Z (z : Z) : number := Fin (inject_Z z).

End JsNumber.

Export JsNumber.

Declare Scope num_scope.
Delimit Scope num_scope with num.
Bind Scope num_scope with number.
Infix "≤" := num_le : num_scope.
Infix "<" := num_lt : num_scope.

(** ** The dashboard: data *)

Module Dashboard.

(** The double quote, for the attribute values of the templates. *)
Definition dq : string := String (Ascii.ascii_of_nat 34) EmptyString.
Definition q (s : string) : string := dq +:+ s +:+ dq.

(** [a || b] where [a] is a number that may be absent. *)
Definition or_num (a : option number) (b : number) : number :=
  match a with
  | Some n => if num_truthy n then n else b
  | None => b
  end.

(** ToBoolean on a string: only the empty string is falsy. *)
Definition str_truthy (s : string) : bool := negb (String.eqb s EmptyString).

(** [a || b] where [a] is a string that may be absent. *)
Definition or_str (a : option string) (b : string) : string :=
  match a with
  | Some s => if str_truthy s then s else b
  | None => b
  end.

(** ToNumber of a property that may be absent: [undefined] gives [NaN]. *)
Definition to_number (a : option number) : number := default NaN a.

(** [String.prototype.toUpperCase], on the ASCII letters. *)
Definition upper_ascii (c : Ascii.ascii) : Ascii.ascii :=
  let n := Ascii.nat_of_ascii c in
  if (97 <=? n)%nat && (n <=? 122)%nat then Ascii.ascii_of_nat (n - 32) else c.

Fixpoint toUpperCase (s : string) : string :=
  match s with
  | EmptyString => EmptyString
  | String c r => String (upper_ascii c) (toUpperCase r)
  end.

(** [Array.prototype.join]. *)
Definition join (sep : string) (l : list string) : string := String.concat sep l.

(** An element of an array of the reply, as [Array.prototype.join] reads
    it: [null] gives the empty text, a string gives itself, and any other
    value the text its conversion to a string gives. *)
Inductive element : Type :=
  | Null
  | Str (s : string)
  | Other (text : string).

Definition element_text (e : element) : string :=
  match e with
  | Null => EmptyString
  | Str s => s
  | Other text => text
  end.

(** A factor as the data model has it: a string that is not empty. *)
Definition readable (e : element) : Prop :=
  ∃ s, e = Str s ∧ s ≠ EmptyString.

(** One entry of [surgeData.predictions], as the [/surge] endpoint sends
    it.  The properties the dashboard reads through [||] may be absent. *)
Record Prediction := {
  hospital_id : string;
  hospital_name : string;
  predicted_surge : option number;
  risk_level : option string;
  surge_factors : option (list element);
}.

Record LatLng := { lat : number; lng : number }.

(** One entry of the [/hospitals] reply. *)
Record Hospital := {
  id : string;
  name : string;
  type : string;
  capacity : number;
  current_patients : number;
  location : LatLng;
  icu_beds : number;
  icu_occupied : number;
  ventilators : number;
  ventilators_in_use : number;
}.

(** The [/surge] reply; [predictions] refers to an array of the store. *)
Record SurgeData := { predictions : option nat }.

Record Alert := { level : string; title : string; message : string }.

Record FromHospital := {
  from_name : string;
  from_predicted_surge : option number;
  from_current_load : option number;
}.

Record ToHospital := { to_name : string; available_beds : number }.

Record Transfer := {
  priority : string;
  from_hospital : FromHospital;
  to_hospital : ToHospital;
  patients_to_transfer : number;
  distance_km : number;
}.

(** The [/balance] reply. *)
Record BalanceData := {
  alerts : option (list Alert);
  transfer_recommendations : option (list Transfer);
  action_items : option (list string);
}.

(** A Leaflet layer object. *)
Inductive layer : Type :=
  | TileLayer (url : string)
  | Circle (center : LatLng) (radius : number) (color : string)
  | Marker (center : LatLng) (iconHtml : string) (popup : option string).

Definition is_circle (l : layer) : bool :=
  match l with Circle _ _ _ => true | _ => false end.
Definition is_marker (l : layer) : bool :=
  match l with Marker _ _ _ => true | _ => false end.

(** The state of the page.  Leaflet stamps every layer with a number
    ([lastId] is its counter) and keeps the layers of the map by stamp;
    the two global arrays hold references to layer objects, that is,
    stamps; [arrays] is the store of the prediction arrays; [elements]
    gives the text or HTML content of the elements by their id. *)
Record page := {
  layers : gmap nat layer;
  lastId : nat;
  on_map : gset nat;
  hospitalMarkers : list nat;
  surgeCircles : list nat;
  arrays : gmap nat (list Prediction);
  elements : gmap string string;
}.

Definition set_on_map (s : gset nat) (st : page) : page :=
  {| layers := layers st; lastId := lastId st; on_map := s;
     hospitalMarkers := hospitalMarkers st; surgeCircles := surgeCircles st;
     arrays := arrays st; elements := elements st |}.

Definition set_hospitalMarkers (l : list nat) (st : page) : page :=
  {| layers := layers st; lastId := lastId st; on_map := on_map st;
     hospitalMarkers := l; surgeCircles := surgeCircles st;
     arrays := arrays st; elements := elements st |}.

Definition set_surgeCircles (l : list nat) (st : page) : page :=
  {| layers := layers st; lastId := lastId st; on_map := on_map st;
     hospitalMarkers := hospitalMarkers st; surgeCircles := l;
     arrays := arrays st; elements := elements st |}.

Definition set_array (r : nat) (l : list Prediction) (st : page) : page :=
  {| layers := layers st; lastId := lastId st; on_map := on_map st;
     hospitalMarkers := hospitalMarkers st; surgeCircles := surgeCircles st;
     arrays := <[r := l]> (arrays st); elements := elements st |}.

(** [document.getElementById(e).textContent = s] and [.innerHTML = s]. *)
Definition set_content (e s : string) (st : page) : page :=
  {| layers := layers st; lastId := lastId st; on_map := on_map st;
     hospitalMarkers := hospitalMarkers st; surgeCircles := surgeCircles st;
     arrays := arrays st; elements := <[e := s]> (elements st) |}.

(** The array a reference points to. *)
Definition array_at (st : page) (r : nat) : list Prediction :=
  default [] (arrays st !! r).

(** [L.circle(..)], [L.marker(..)], [L.tileLayer(..)]: a new layer object
    with the next stamp. *)
Definition new_layer (l : layer) (st : page) : nat * page :=
  let i := S (lastId st) in
  (i, {| layers := <[i := l]> (layers st); lastId := i; on_map := on_map st;
         hospitalMarkers := hospitalMarkers st;
         surgeCircles := surgeCircles st;
         arrays := arrays st; elements := elements st |}).

(** Leaflet's [LatLng] refuses a coordinate that is not a number, and
    its [Circle] a radius that is not a number: the constructors throw
    and no layer is made. *)
Definition is_NaN (a : number) : bool :=
  match a with NaN => true | _ => false end.

Definition valid_LatLng (c : LatLng) : bool :=
  negb (is_NaN (lat c)) && negb (is_NaN (lng c)).

(** [L.circle(latlng, {radius, ..})]: the coordinates are converted
    first, the radius is tested next. *)
Definition L_circle (center : LatLng) (radius : number) (color : string)
    (st : page) : option (nat * page) :=
  if valid_LatLng center && negb (is_NaN radius)
  then Some (new_layer (Circle center radius color) st)
  else None.

(** [L.marker(latlng, {icon})]. *)
Definition L_marker (center : LatLng) (iconHtml : string) (st : page)
  : option (nat * page) :=
  if valid_LatLng center
  then Some (new_layer (Marker center iconHtml None) st)
  else None.

(** [layer.addTo(map)]. *)
Definition addTo (i : nat) (st : page) : page :=
  set_on_map ({[i]} ∪ on_map st) st.

(** [map.removeLayer(layer)]. *)
Definition removeLayer (i : nat) (st : page) : page :=
  set_on_map (on_map st ∖ {[i]}) st.

(** [marker.bindPopup(content)]: the marker object itself is changed. *)
Definition bindPopup (i : nat) (content : string) (st : page) : page :=
  let upd l :=
    match l with
    | Marker c icon _ => Marker c icon (Some content)
    | other => other
    end in
  {| layers := alter upd i (layers st); lastId := lastId st;
     on_map := on_map st; hospitalMarkers := hospitalMarkers st;
     surgeCircles := surgeCircles st;
     arrays := arrays st; elements := elements st |}.

(** The page once the script is loaded and [initMap] has run: the two
    global arrays are empty and the map carries its tile layer. *)
Definition tile_url : string :=
  "https://{s}.tile.openstreetmap.org/{z}/{x}/{y}.png".

Definition initMap : page :=
  let st0 := {| layers := ∅; lastId := 0; on_map := ∅;
                hospitalMarkers := []; surgeCircles := [];
                arrays := ∅; elements := ∅ |} in
  let '(i, st1) := new_layer (TileLayer tile_url) st0 in
  addTo i st1.

(** ** The dashboard: operations *)

(** [getRiskLevel(load)]: the tiers are tested from the top. *)
Definition getRiskLevel (load : number) : string :=
  if num_geb load (Fin 90) then "critical"
  else if num_geb load (Fin 70) then "high"
  else if num_geb load (Fin 50) then "medium"
  else "low".

(** [getLoadColor(riskLevel)]: a [switch] with a default. *)
Definition getLoadColor (riskLevel : string) : string :=
  if String.eqb riskLevel "critical" then "#dc2626"
  else if String.eqb riskLevel "high" then "#ef4444"
  else if String.eqb riskLevel "medium" then "#f59e0b"
  else if String.eqb riskLevel "low" then "#22c55e"
  else "#64748b".

(** [Array.prototype.sort(cmp)]: a stable sort; [cmp a b > 0] puts [b]
    before [a], and a comparator result of [NaN] counts as [0]. *)
Fixpoint insert_by {A : Type} (cmp : A → A → number) (x : A) (l : list A)
  : list A :=
  match l with
  | [] => [x]
  | y :: r =>
      if num_gtb (cmp x y) (Fin 0) then y :: insert_by cmp x r
      else x :: y :: r
  end.

Definition js_sort {A : Type} (cmp : A → A → number) (l : list A) : list A :=
  foldr (insert_by cmp) [] l.

(** [(a, b) => b.predicted_surge - a.predicted_surge]. *)
Definition by_surge_desc (a b : Prediction) : number :=
  num_sub (to_number (predicted_surge b)) (to_number (predicted_surge a)).

(** The number [predicted_surge] stands for in the comparator. *)
Definition surge_of (p : Prediction) : number := to_number (predicted_surge p).

(** A prediction the comparator orders: its surge is a number other than
    [NaN]. *)
Definition numeric_surge (p : Prediction) : Prop := surge_of p ≠ NaN.

(** The order of the cards: [a] may stand before [b]. *)
Definition surge_ge (a b : Prediction) : Prop :=
  (surge_of b ≤ surge_of a)%num.

(** [predictions.forEach(p => { predictionMap[p.hospital_id] = p; })]
    from the empty object.  A key that no prediction carries leads to no
    prediction object: what [{}] inherits has no [predicted_surge] and no
    [risk_level]. *)
Definition predictionMap_of (predictions : list Prediction)
  : gmap string Prediction :=
  foldl (λ m p, <[hospital_id p := p]> m) ∅ predictions.

(** The first lines of the body of [hospitals.forEach] in [updateMap]. *)
Definition hospital_load (predictionMap : gmap string Prediction)
    (hospital : Hospital) : number :=
  let prediction := predictionMap !! id hospital in
  or_num (prediction ≫= predicted_surge)
    (num_mul (num_div (current_patients hospital) (capacity hospital))
       (Fin 100)).

Definition hospital_riskLevel (predictionMap : gmap string Prediction)
    (hospital : Hospital) : string :=
  let prediction := predictionMap !! id hospital in
  or_str (prediction ≫= risk_level)
    (getRiskLevel (hospital_load predictionMap hospital)).

(** [(p.surge_factors || []).join(', ') || 'Normal']. *)
Definition factors_text (p : Prediction) : string :=
  let joined := join ", " (element_text <$> default [] (surge_factors p)) in
  if str_truthy joined then joined else "Normal".

(** The outcome of a function of the page: it returns, or it throws; the
    state is the one reached. *)
Inductive outcome : Type :=
  | Returns (st : page)
  | Throws (st : page).

Definition state_of (o : outcome) : page :=
  match o with Returns st | Throws st => st end.

(** [Array.prototype.forEach] with a callback that works on the page: an
    exception of the callback ends the loop. *)
Fixpoint forEach {A : Type} (f : page → A → outcome) (st : page) (l : list A)
  : outcome :=
  match l with
  | [] => Returns st
  | x :: r =>
      match f st x with
      | Returns st' => forEach f st' r
      | Throws st' => Throws st'
      end
  end.

(** The elements of a list before the first one that fails a test. *)
Fixpoint prefix_while {A : Type} (ok : A → bool) (l : list A) : list A :=
  match l with
  | [] => []
  | x :: r => if ok x then x :: prefix_while ok r else []
  end.

Section Render.

(** [Number.prototype.toFixed] and the conversion of a number to a string
    in a template. *)
Variable toFixed : nat → number → string.
Variable num_to_string : number → string.

(** The templates.  White space that the template literals carry between
    tags, for layout, is left out. *)
Definition icon_html (color : string) : string :=
  "<div style=" +:+ q ("background-color: " +:+ color +:+
    "; width: 30px; height: 30px; border-radius: 50%; border: 3px solid white; box-shadow: 0 2px 6px rgba(0,0,0,0.3); display: flex; align-items: center; justify-content: center; color: white; font-size: 14px; font-weight: bold;")
  +:+ ">🏥</div>".

Definition popup_stat (label value : string) : string :=
  "<div class=" +:+ q "popup-stat" +:+ "><label>" +:+ label +:+
  "</label><value>" +:+ value +:+ "</value></div>".

Definition popup_stat_styled (label style value : string) : string :=
  "<div class=" +:+ q "popup-stat" +:+ "><label>" +:+ label +:+
  "</label><value style=" +:+ q style +:+ ">" +:+ value +:+ "</value></div>".

Definition popupContent (hospital : Hospital) (load : number)
    (riskLevel color : string) : string :=
  "<div class=" +:+ q "popup-content" +:+ "><h3>" +:+ name hospital +:+ "</h3>"
  +:+ popup_stat "Type:" (type hospital)
  +:+ popup_stat "Capacity:" (num_to_string (capacity hospital) +:+ " beds")
  +:+ popup_stat "Current Patients:" (num_to_string (current_patients hospital))
  +:+ popup_stat_styled "Current Load:"
        ("color: " +:+ color +:+ "; font-weight: bold;")
        (toFixed 1 load +:+ "%")
  +:+ popup_stat "ICU Beds:"
        (num_to_string (icu_occupied hospital) +:+ "/" +:+
         num_to_string (icu_beds hospital))
  +:+ popup_stat "Ventilators:"
        (num_to_string (ventilators_in_use hospital) +:+ "/" +:+
         num_to_string (ventilators hospital))
  +:+ popup_stat_styled "Risk Level:"
        ("color: " +:+ color +:+ "; text-transform: uppercase;") riskLevel
  +:+ "</div>".

(** [surgeData.predictions || []]. *)
Definition predictions_of (surgeData : SurgeData) (st : page)
  : list Prediction :=
  match predictions surgeData with
  | Some r => array_at st r
  | None => []
  end.

(** The body of [hospitals.forEach] in [updateMap]. *)
Definition show_hospital (predictionMap : gmap string Prediction)
    (st : page) (hospital : Hospital) : outcome :=
  let load := hospital_load predictionMap hospital in
  let riskLevel := hospital_riskLevel predictionMap hospital in
  let color := getLoadColor riskLevel in
  match L_circle (location hospital)
          (num_add (Fin 800) (num_mul load (Fin 5))) color st with
  | None => Throws st
  | Some (surgeCircle, st) =>
      let st := addTo surgeCircle st in
      let st := set_surgeCircles (surgeCircles st ++ [surgeCircle]) st in
      match L_marker (location hospital) (icon_html color) st with
      | None => Throws st
      | Some (marker, st) =>
          let st := addTo marker st in
          let st :=
            bindPopup marker (popupContent hospital load riskLevel color) st in
          Returns (set_hospitalMarkers (hospitalMarkers st ++ [marker]) st)
      end
  end.

(** [updateMap(hospitals, surgeData)]. *)
Definition clear_layers (st : page) : page :=
  let st := foldl (λ s marker, removeLayer marker s) st (hospitalMarkers st) in
  let st := foldl (λ s circle, removeLayer circle s) st (surgeCircles st) in
  set_surgeCircles [] (set_hospitalMarkers [] st).

Definition updateMap (hospitals : list Hospital) (surgeData : SurgeData)
    (st : page) : outcome :=
  let st := clear_layers st in
  let predictions := predictions_of surgeData st in
  let predictionMap := predictionMap_of predictions in
  forEach (show_hospital predictionMap) st hospitals.

(** A hospital Leaflet accepts: its coordinates and its load are numbers.
    [displayed] are the hospitals of a list before the first one it does
    not accept. *)
Definition displayable (predictionMap : gmap string Prediction)
    (hospital : Hospital) : bool :=
  valid_LatLng (location hospital)
  && negb (is_NaN (hospital_load predictionMap hospital)).

Definition displayed (predictionMap : gmap string Prediction)
    (hospitals : list Hospital) : list Hospital :=
  prefix_while (displayable predictionMap) hospitals.

(** The two layers [updateMap] makes for a hospital, as they are once
    the body of the loop is through. *)
Definition circle_for (predictionMap : gmap string Prediction)
    (hospital : Hospital) : layer :=
  Circle (location hospital)
    (num_add (Fin 800) (num_mul (hospital_load predictionMap hospital) (Fin 5)))
    (getLoadColor (hospital_riskLevel predictionMap hospital)).

Definition marker_for (predictionMap : gmap string Prediction)
    (hospital : Hospital) : layer :=
  let load := hospital_load predictionMap hospital in
  let riskLevel := hospital_riskLevel predictionMap hospital in
  let color := getLoadColor riskLevel in
  Marker (location hospital) (icon_html color)
    (Some (popupContent hospital load riskLevel color)).

(** The page after the body of the loop, for a hospital Leaflet accepts:
    two new stamps, two new layers on the map, one more entry in each
    tracking array. *)
Definition add_layers (predictionMap : gmap string Prediction)
    (st : page) (hospital : Hospital) : page :=
  {| layers := <[S (S (lastId st)) := marker_for predictionMap hospital]>
                 (<[S (lastId st) := circle_for predictionMap hospital]>
                    (layers st));
     lastId := S (S (lastId st));
     on_map := {[S (S (lastId st))]} ∪ ({[S (lastId st)]} ∪ on_map st);
     hospitalMarkers := hospitalMarkers st ++ [S (S (lastId st))];
     surgeCircles := surgeCircles st ++ [S (lastId st)];
     arrays := arrays st;
     elements := elements st |}.

(** The layers of one kind that are on the map. *)
Definition is_kind (kind : layer → bool) (st : page) (i : nat) : bool :=
  from_option kind false (layers st !! i).

Definition shown (kind : layer → bool) (st : page) : gset nat :=
  filter (λ i, is_kind kind st i = true) (on_map st).

(** One card of [updateHospitalsList]; [toFixed] on an absent
    [predicted_surge] is a TypeError. *)
Definition hospital_card (p : Prediction) : option string :=
  let riskLevel := or_str (risk_level p) (getRiskLevel (to_number (predicted_surge p))) in
  surge ← predicted_surge p;
  Some ("<div class=" +:+ q ("hospital-card " +:+ riskLevel) +:+ ">"
    +:+ "<div class=" +:+ q "hospital-info" +:+ "><h3>" +:+ hospital_name p
    +:+ "</h3><p>Factors: " +:+ factors_text p +:+ "</p></div>"
    +:+ "<div class=" +:+ q "hospital-load" +:+ ">"
    +:+ "<div class=" +:+ q ("load-value " +:+ riskLevel) +:+ ">"
    +:+ toFixed 0 surge +:+ "%</div>"
    +:+ "<div class=" +:+ q "load-label" +:+ ">Predicted Load</div>"
    +:+ "</div></div>").

(** [updateHospitalsList(predictions)]; the argument is a reference to
    the array, which [sort] rearranges in the store. *)
Definition updateHospitalsList (predictions : nat) (st : page) : outcome :=
  let arr := array_at st predictions in
  let st := set_content "hospitalCount" (pretty (length arr)) st in
  if (length arr =? 0)%nat then
    Returns (set_content "hospitalsContent"
               ("<div class=" +:+ q "loading" +:+
                ">No hospital data available</div>") st)
  else
    let sorted := js_sort by_surge_desc arr in
    let st := set_array predictions sorted st in
    match mapM hospital_card sorted with
    | Some cards =>
        Returns (set_content "hospitalsContent" (join EmptyString cards) st)
    | None => Throws st
    end.

(** [x?.length], as a condition and as a number ([x?.length || 0]). *)
Definition has_length {A : Type} (x : option (list A)) : bool :=
  match x with
  | Some (_ :: _) => true
  | _ => false
  end.

Definition length_or_0 {A : Type} (x : option (list A)) : nat :=
  match x with
  | Some l => length l
  | None => 0
  end.

(** [a || b] on two strings that may be absent, and the text a template
    gives to the result. *)
Definition or_opt_str (a b : option string) : option string :=
  match a with
  | Some s => if str_truthy s then Some s else b
  | None => b
  end.

Definition interpolate (a : option string) : string := default "undefined" a.

Definition alert_card (alert : Alert) : string :=
  let alertClass :=
    if String.eqb (level alert) "critical" then "critical"
    else if String.eqb (level alert) "warning" then "warning" else "info" in
  let icon :=
    if String.eqb (level alert) "critical" then "🚨"
    else if String.eqb (level alert) "warning" then "⚠️" else "ℹ️" in
  "<div class=" +:+ q ("alert-card " +:+ alertClass) +:+ ">"
  +:+ "<div class=" +:+ q "alert-header" +:+ ">" +:+ icon +:+ " "
  +:+ title alert +:+ "</div>"
  +:+ "<div class=" +:+ q "alert-message" +:+ ">" +:+ message alert
  +:+ "</div></div>".

Definition transfer_card (t : Transfer) : string :=
  let load :=
    or_opt_str (toFixed 0 <$> from_predicted_surge (from_hospital t))
               (toFixed 0 <$> from_current_load (from_hospital t)) in
  "<div class=" +:+ q "transfer-card" +:+ ">"
  +:+ "<div class=" +:+ q "transfer-header" +:+ ">"
  +:+ (if String.eqb (priority t) "urgent" then "🚑" else "➡️") +:+ " "
  +:+ toUpperCase (priority t) +:+ " Transfer</div>"
  +:+ "<div class=" +:+ q "transfer-details" +:+ ">"
  +:+ "<div class=" +:+ q "transfer-from" +:+ "><strong>From:</strong> "
  +:+ from_name (from_hospital t) +:+ "<br><small>Load: "
  +:+ interpolate load +:+ "%</small></div>"
  +:+ "<div class=" +:+ q "transfer-arrow" +:+ ">→</div>"
  +:+ "<div class=" +:+ q "transfer-to" +:+ "><strong>To:</strong> "
  +:+ to_name (to_hospital t) +:+ "<br><small>"
  +:+ num_to_string (available_beds (to_hospital t))
  +:+ " beds available</small></div></div>"
  +:+ "<div style=" +:+ q "margin-top: 0.5rem;" +:+ ">"
  +:+ "<span class=" +:+ q "transfer-count" +:+ ">"
  +:+ num_to_string (patients_to_transfer t) +:+ " patients</span>"
  +:+ "<small style=" +:+ q "margin-left: 0.5rem; color: #64748b;" +:+ ">"
  +:+ num_to_string (distance_km t) +:+ " km</small></div></div>".

Definition action_card (item : string) : string :=
  "<div class=" +:+ q "action-item" +:+ "><span class=" +:+ q "action-icon"
  +:+ ">✅</span><span>" +:+ item +:+ "</span></div>".

Definition section_heading (text : string) : string :=
  "<h4 style=" +:+ q "margin: 1rem 0 0.5rem; font-size: 0.875rem;" +:+ ">"
  +:+ text +:+ "</h4>".

Definition all_clear : string :=
  "<div style=" +:+ q "text-align: center; padding: 2rem; color: #22c55e;"
  +:+ "><div style=" +:+ q "font-size: 2rem; margin-bottom: 0.5rem;"
  +:+ ">✓</div><p>All hospitals are operating within normal parameters.</p>"
  +:+ "<p style=" +:+ q "font-size: 0.8rem; color: #64748b; margin-top: 0.5rem;"
  +:+ ">No transfers or interventions recommended at this time.</p></div>".

(** The number [updateRecommendations] writes into the badge. *)
Definition alertCount_of (balanceData : BalanceData) : nat :=
  (length_or_0 (alerts balanceData) +
   length_or_0 (transfer_recommendations balanceData))%nat.

(** The string [html] of [updateRecommendations] when its last test is
    reached. *)
Definition recommendations_html (balanceData : BalanceData) : string :=
  let html := EmptyString in
  let html :=
    if has_length (alerts balanceData) then
      html +:+ join EmptyString (alert_card <$> default [] (alerts balanceData))
    else html in
  let html :=
    if has_length (transfer_recommendations balanceData) then
      html +:+ section_heading "Patient Transfers"
      +:+ join EmptyString
            (transfer_card <$> default [] (transfer_recommendations balanceData))
    else html in
  let html :=
    if has_length (action_items balanceData) then
      html +:+ section_heading "Action Items"
      +:+ "<div class=" +:+ q "action-items" +:+ ">"
      +:+ join EmptyString (action_card <$> default [] (action_items balanceData))
      +:+ "</div>"
    else html in
  html.

(** [updateRecommendations(balanceData)]. *)
Definition updateRecommendations (balanceData : BalanceData) (st : page)
  : page :=
  let st := set_content "alertCount" (pretty (alertCount_of balanceData)) st in
  let html := recommendations_html balanceData in
  let html := if str_truthy html then html else all_clear in
  set_content "recommendationsContent" html st.

(** *** Loading *)

(** The text a template gives to an element of an array. *)
Definition element_string (e : element) : string :=
  match e with
  | Null => "null"
  | Str s => s
  | Other text => text
  end.

(** [surgeData.city_summary], every property of which may be absent. *)
Record CitySummary := {
  overall_risk : option string;
  overall_occupancy : option number;
  total_capacity : option number;
  total_occupied : option number;
  average_aqi : option number;
  active_events : option number;
  recommendations : option (list element);
}.

Definition stat_card (class value label : string) : string :=
  "<div class=" +:+ q class +:+ "><div class=" +:+ q "stat-value" +:+ ">"
  +:+ value +:+ "</div><div class=" +:+ q "stat-label" +:+ ">" +:+ label
  +:+ "</div></div>".

(** [${x || 0}] for a number that may be absent. *)
Definition number_or_0 (x : option number) : string :=
  num_to_string (or_num x (Fin 0)).

Definition summary_html (summary : CitySummary) : string :=
  let riskClass := "risk-" +:+ or_str (overall_risk summary) "medium" in
  "<div class=" +:+ q "summary-stats" +:+ ">"
  +:+ stat_card ("stat-card " +:+ riskClass)
        (toUpperCase (or_str (overall_risk summary) "N/A")) "City Risk Level"
  +:+ stat_card "stat-card"
        (default (num_to_string (Fin 0))
           (or_opt_str (toFixed 0 <$> overall_occupancy summary) None) +:+ "%")
        "Overall Occupancy"
  +:+ stat_card "stat-card" (number_or_0 (total_capacity summary))
        "Total Capacity"
  +:+ stat_card "stat-card" (number_or_0 (total_occupied summary))
        "Total Occupied"
  +:+ stat_card "stat-card" (number_or_0 (average_aqi summary)) "Average AQI"
  +:+ stat_card "stat-card" (number_or_0 (active_events summary))
        "Active Events"
  +:+ "</div>"
  +:+ (if has_length (recommendations summary) then
         "<div class=" +:+ q "action-items" +:+ ">"
         +:+ join EmptyString
               ((λ r, "<div class=" +:+ q "action-item" +:+ "><span class="
                      +:+ q "action-icon" +:+ ">⚠️</span><span>"
                      +:+ element_string r +:+ "</span></div>")
                <$> default [] (recommendations summary))
         +:+ "</div>"
       else EmptyString).

(** [updateSummary(summary)]. *)
Definition updateSummary (summary : CitySummary) (st : page) : page :=
  set_content "summaryContent" (summary_html summary) st.

(** [updateLastUpdated()], at a moment whose local text is [now]. *)
Definition updateLastUpdated (now : string) (st : page) : page :=
  set_content "lastUpdated" now st.

(** The states of the page: the one [initMap] leaves, and the ones the
    handlers of the dashboard make of it, whether they return or throw
    ([loadData] catches what they throw); a reply of the server becomes
    a new array of the store. *)
Inductive reachable : page → Prop :=
  | reach_initMap : reachable initMap
  | reach_reply r arr st :
      reachable st → reachable (set_array r arr st)
  | reach_updateMap hospitals surgeData st :
      reachable st →
      reachable (state_of (updateMap hospitals surgeData st))
  | reach_updateHospitalsList r st :
      reachable st → reachable (state_of (updateHospitalsList r st))
  | reach_updateRecommendations balanceData st :
      reachable st → reachable (updateRecommendations balanceData st)
  | reach_updateSummary summary st :
      reachable st → reachable (updateSummary summary st)
  | reach_updateLastUpdated now st :
      reachable st → reachable (updateLastUpdated now st).

(** What holds of the layers in every such state: stamps are below the
    counter, the map shows stamped layers, and the markers and circles it
    shows are the tracked ones, each once. *)
Record tracked (st : page) : Prop := {
  tracked_stamps : ∀ i, is_Some (layers st !! i) → (i ≤ lastId st)%nat;
  tracked_on_map : ∀ i, i ∈ on_map st → is_Some (layers st !! i);
  tracked_markers : shown is_marker st = list_to_set (hospitalMarkers st);
  tracked_circles : shown is_circle st = list_to_set (surgeCircles st);
  tracked_markers_NoDup : NoDup (hospitalMarkers st);
  tracked_circles_NoDup : NoDup (surgeCircles st);
}.

(** The window: the page, the classes of the loading overlay, the
    dialogs [alert] has shown and the first argument of every
    [console.error]. *)
Record window := {
  doc : page;
  overlay : gset string;
  alerts_shown : list string;
  console : list string;
}.

Definition on_doc (f : page → page) (w : window) : window :=
  {| doc := f (doc w); overlay := overlay w;
     alerts_shown := alerts_shown w; console := console w |}.

(** [showLoading(show)]. *)
Definition showLoading (show : bool) (w : window) : window :=
  {| doc := doc w;
     overlay := if show then overlay w ∖ {["hidden"]}
                else overlay w ∪ {["hidden"]};
     alerts_shown := alerts_shown w; console := console w |}.

(** [showError(message)]. *)
Definition showError (message : string) (w : window) : window :=
  {| doc := doc w; overlay := overlay w;
     alerts_shown := alerts_shown w ++ [message];
     console := console w ++ [message] |}.

(** The [catch] blocks: [console.error(label, error); showError(message)]. *)
Definition caught (label message : string) (w : window) : window :=
  showError message
    {| doc := doc w; overlay := overlay w;
       alerts_shown := alerts_shown w; console := console w ++ [label] |}.

(** The two replies [loadData] waits for, once parsed; [None] stands for
    a request or a parse that fails. *)
Record SurgeReply := {
  reply_predictions : option (list Prediction);
  reply_city_summary : option CitySummary;
}.

Definition empty_summary : CitySummary :=
  {| overall_risk := None; overall_occupancy := None; total_capacity := None;
     total_occupied := None; average_aqi := None; active_events := None;
     recommendations := None |}.

(** A new array of the store. *)
Definition new_array (arr : list Prediction) (st : page) : nat * page :=
  let r := fresh (dom (arrays st)) in (r, set_array r arr st).

(** The body of the [try] block of [loadData], from the parsed replies
    on: the first handler that throws ends it. *)
Definition show_data (hospitals : list Hospital) (surgeData : SurgeReply)
    (now : string) (st : page) : outcome :=
  let '(sd, st) :=
    match reply_predictions surgeData with
    | Some arr => let '(r, st) := new_array arr st in
                  ({| predictions := Some r |}, st)
    | None => ({| predictions := None |}, st)
    end in
  match updateMap hospitals sd st with
  | Throws st => Throws st
  | Returns st =>
      let '(r, st) :=
        match predictions sd with
        | Some r => (r, st)
        | None => new_array [] st
        end in
      match updateHospitalsList r st with
      | Throws st => Throws st
      | Returns st =>
          let st :=
            updateSummary
              (default empty_summary (reply_city_summary surgeData)) st in
          Returns (updateLastUpdated now st)
      end
  end.

(** [loadData()], given what the two requests bring and the time. *)
Definition loadData (reply : option (list Hospital * SurgeReply))
    (now : string) (w : window) : window :=
  let w := showLoading true w in
  let w :=
    match reply with
    | None => caught "Error loading data:" "Failed to load hospital data" w
    | Some (hospitals, surgeData) =>
        match show_data hospitals surgeData now (doc w) with
        | Returns st => on_doc (λ _, st) w
        | Throws st =>
            caught "Error loading data:" "Failed to load hospital data"
              (on_doc (λ _, st) w)
        end
    end in
  showLoading false w.

(** [loadBalance()], likewise. *)
Definition loadBalance (reply : option BalanceData) (now : string)
    (w : window) : window :=
  let w := showLoading true w in
  let w :=
    match reply with
    | None =>
        caught "Error loading balance data:"
          "Failed to load balance recommendations" w
    | Some balanceData =>
        on_doc (λ st, updateLastUpdated now
                        (updateRecommendations balanceData st)) w
    end in
  showLoading false w.

End Render.

End Dashboard.

(** ** The decision core: surge prediction and load balancing

    The dashboard shows what two server-side components compute,
    [backend/predictor.py] and [backend/load_balancer.py].  Both are
    described by the specification and by the README. *)

Module Core.

Inductive RiskTier : Type := low | medium | high | critical.

#[global] Instance RiskTier_eq_dec : EqDecision RiskTier.
Proof. solve_decision. Defined.

Record Hospital := {
  id : string;
  name : string;
  capacity : Z;
  current_patients : Z;
  lat : Q;
  lng : Q;
  zone : string;
}.

Record PollutionReading := { reading_zone : string; aqi : Z }.

Record Event := { event_name : string; event_zone : string; magnitude : Q }.

Record SurgePrediction := {
  hospital_id : string;
  hospital_name : string;
  predicted_surge : Q;
  risk_level : RiskTier;
  surge_factors : list string;
}.

Record CitySummary := {
  overall_risk : RiskTier;
  overall_occupancy : Q;
  total_capacity : Z;
  total_occupied : Z;
  average_aqi : Q;
  active_events : nat;
  recommendations : list string;
}.

Record SurgeResult := {
  predictions : list SurgePrediction;
  city_summary : CitySummary;
}.

(** The four input signals of one call. *)
Record Signals := {
  hospitals : list Hospital;
  pollutionByZone : list PollutionReading;
  activeEvents : list Event;
  recentInflowByHospital : string → list Z;
}.

(** What the external provider answers for one hospital. *)
Record Reply := { reply_score : Q; reply_factors : list string }.

(** The strategy that scores a hospital. *)
Inductive Scorer : Type :=
  | RuleBasedScorer
  | ExternalScorer (ask : Signals → Hospital → option Reply).

Definition clamp (lo hi x : Q) : Q :=
  if Qle_bool x lo then lo else if Qle_bool hi x then hi else x.

Definition Qmin_b (x y : Q) : Q := if Qle_bool x y then x else y.

Definition Qsum (l : list Q) : Q := foldr Qplus 0 l.

Definition average (l : list Z) : option Q :=
  match l with
  | [] => None
  | _ => Some (Qsum (inject_Z <$> l) / inject_Z (Z.of_nat (length l)))
  end.

(** The last [n] elements of a list. *)
Definition trailing {A : Type} (n : nat) (l : list A) : list A :=
  drop (length l - n) l.

(** Modelled from the spec: the occupancy percentage of a hospital,
    [current_patients / capacity * 100] (the spec's base term before it
    is clamped and the balancer's fallback signal); the code that computes
    it is in [backend/], which is not part of the sources read here. *)
Definition occupancy (h : Hospital) : Q :=
  inject_Z (current_patients h) / inject_Z (capacity h) * 100.

(** Modelled from the spec: the risk tier of a score, section 4.1 step 6
    ([backend/predictor.py] is missing): [critical] from 90, [high] from
    70, [medium] from 50, else [low], tested from the top. *)
Definition risk_tier (score : Q) : RiskTier :=
  if Qle_bool 90 score then critical
  else if Qle_bool 70 score then high
  else if Qle_bool 50 score then medium
  else low.

Definition tier_rank (t : RiskTier) : nat :=
  match t with low => 0 | medium => 1 | high => 2 | critical => 3 end.

Definition tier_max (a b : RiskTier) : RiskTier :=
  if (tier_rank a <? tier_rank b)%nat then b else a.

Section SurgePredictor.

(** The coefficients the spec leaves configurable. *)
Variable aqi_threshold : Z.
Variable pollution_rate pollution_cap : Q.
Variable event_rate event_cap : Q.
Variable recent_hours baseline_hours : nat.
Variable inflow_threshold inflow_rate inflow_cap : Q.

(** Modelled from the spec: the rule-based scoring of section 4.1, steps
    1 to 5 and 7 ([backend/predictor.py] is missing).  Every adjustment is
    a bonus with its factor text, or nothing. *)
Definition base_term (h : Hospital) : Q :=
  if (capacity h =? 0)%Z then 0 else clamp 0 100 (occupancy h).

Definition pollution_adjustment (s : Signals) (h : Hospital)
  : option (Q * string) :=
  r ← List.find (λ r, String.eqb (reading_zone r) (zone h)) (pollutionByZone s);
  if (aqi_threshold <=? aqi r)%Z then
    Some (Qmin_b pollution_cap
            (pollution_rate * inject_Z (aqi r - aqi_threshold)),
          "High pollution (AQI=" +:+ pretty (aqi r) +:+ ")")
  else None.

Definition event_adjustments (s : Signals) (h : Hospital)
  : list (Q * string) :=
  (λ e, (Qmin_b event_cap (event_rate * magnitude e),
         "Nearby event: " +:+ event_name e))
  <$> filter (λ e, event_zone e = zone h) (activeEvents s).

Definition inflow_adjustment (s : Signals) (h : Hospital)
  : option (Q * string) :=
  let history := recentInflowByHospital s (id h) in
  recent ← average (trailing recent_hours history);
  baseline ← average (trailing baseline_hours history);
  if Qle_bool baseline 0 then None
  else
    let excess := (recent - baseline) / baseline in
    if Qle_bool excess inflow_threshold then None
    else Some (Qmin_b inflow_cap (inflow_rate * excess),
               "Rising patient inflow").

(** The adjustments in the order they are applied: pollution, events,
    inflow trend. *)
Definition adjustments (s : Signals) (h : Hospital) : list (Q * string) :=
  option_list (pollution_adjustment s h)
  ++ event_adjustments s h
  ++ option_list (inflow_adjustment s h).

Definition rule_based_score (s : Signals) (h : Hospital) : Q * list string :=
  let adj := adjustments s h in
  (clamp 0 100 (base_term h + Qsum (fst <$> adj)), snd <$> adj).

(** Modelled from the spec: the choice of the scoring path (section 4.1,
    optional LLM path, and the design notes): the reply of the external
    provider replaces score and factors and goes through the same clamp;
    any failure of the provider gives the rule-based score. *)
Definition score (scorer : Scorer) (s : Signals) (h : Hospital)
  : Q * list string :=
  match scorer with
  | RuleBasedScorer => rule_based_score s h
  | ExternalScorer ask =>
      match ask s h with
      | Some r => (clamp 0 100 (reply_score r), reply_factors r)
      | None => rule_based_score s h
      end
  end.

Definition predict_one (scorer : Scorer) (s : Signals) (h : Hospital)
  : SurgePrediction :=
  let '(surge, factors) := score scorer s h in
  {| hospital_id := id h; hospital_name := name h;
     predicted_surge := surge; risk_level := risk_tier surge;
     surge_factors := factors |}.

(** Modelled from the spec: the city summary of section 4.1
    ([backend/predictor.py] is missing). *)
Definition summarize (s : Signals) (ps : list SurgePrediction) : CitySummary :=
  let cap := foldr Z.add 0%Z (capacity <$> hospitals s) in
  let occ := foldr Z.add 0%Z (current_patients <$> hospitals s) in
  let avg_aqi := default 0 (average (aqi <$> pollutionByZone s)) in
  let risk := foldr tier_max low (risk_level <$> ps) in
  {| overall_risk := risk;
     overall_occupancy :=
       if (cap =? 0)%Z then 0 else inject_Z occ / inject_Z cap * 100;
     total_capacity := cap;
     total_occupied := occ;
     average_aqi := avg_aqi;
     active_events := length (activeEvents s);
     recommendations :=
       (if bool_decide (critical ∈ risk_level <$> ps)
        then ["Prepare additional ICU capacity"] else [])
       ++ (if Qle_bool avg_aqi (inject_Z aqi_threshold) then []
           else ["Monitor air quality trend"]) |}.

(** Modelled from the spec: [predict] of section 4.1
    ([backend/predictor.py] is missing): one prediction per hospital, in
    the order of the hospitals, and the summary of the batch. *)
Definition predict (scorer : Scorer) (s : Signals) : SurgeResult :=
  let ps := predict_one scorer s <$> hospitals s in
  {| predictions := ps; city_summary := summarize s ps |}.

(** The rule-based path is taken when no provider is configured or when
    the provider fails for every hospital of the call. *)
Definition rule_based_path (scorer : Scorer) (s : Signals) : Prop :=
  match scorer with
  | RuleBasedScorer => True
  | ExternalScorer ask => ∀ h, h ∈ hospitals s → ask s h = None
  end.

End SurgePredictor.

(** *** Load balancing *)

Inductive HospitalClass : Type := Overloaded | Underutilized | Normal.

#[global] Instance HospitalClass_eq_dec : EqDecision HospitalClass.
Proof. solve_decision. Defined.

Inductive Priority : Type := urgent | normal.

Definition overload_threshold : Q := 85.
Definition underuse_threshold : Q := 60.

Definition Qlt_b (x y : Q) : bool := negb (Qle_bool y x).

(** Free beds of a hospital. *)
Definition available (h : Hospital) : Z := (capacity h - current_patients h)%Z.

Definition prediction_for (ps : list SurgePrediction) (h : Hospital)
  : option SurgePrediction :=
  List.find (λ p, String.eqb (hospital_id p) (id h)) ps.

(** Modelled from the spec: the load signal of the balancer, section 4.2
    ([backend/load_balancer.py] is missing): the predicted surge, or the
    current occupancy when no prediction exists; a hospital without
    prediction and with capacity zero has no usable signal. *)
Definition load_signal (ps : list SurgePrediction) (h : Hospital) : option Q :=
  match prediction_for ps h with
  | Some p => Some (predicted_surge p)
  | None => if (capacity h =? 0)%Z then None else Some (occupancy h)
  end.

(** Modelled from the spec: the classification of sections 4.2 and 8
    ([backend/load_balancer.py] is missing): overloaded when the load
    reaches the 85 threshold, which section 8 fixes by its boundary (a
    hospital at exactly 85% is overloaded), as the spec writes [exceeds]
    for the AQI threshold it gives as [≥200]; otherwise underutilized
    when the load is below 60 and a bed is free; the overload test comes
    first. *)
Definition classify_load (h : Hospital) (load : Q) : HospitalClass :=
  if Qle_bool overload_threshold load then Overloaded
  else if Qlt_b load underuse_threshold && (1 <=? available h)%Z
       then Underutilized
  else Normal.

Definition classify (ps : list SurgePrediction) (h : Hospital)
  : option HospitalClass :=
  classify_load h <$> load_signal ps h.

(** The first element of a list that passes a test, with its position. *)
Fixpoint find_first {A : Type} (f : A → bool) (l : list A)
  : option (nat * A) :=
  match l with
  | [] => None
  | x :: r =>
      if f x then Some (0%nat, x)
      else prod_map S (λ y, y) <$> find_first f r
  end.

Fixpoint insert_sorted {A : Type} (before : A → A → bool) (x : A)
    (l : list A) : list A :=
  match l with
  | [] => [x]
  | y :: r =>
      if before x y then x :: y :: r else y :: insert_sorted before x r
  end.

Definition sort_by {A : Type} (before : A → A → bool) (l : list A) : list A :=
  foldr (insert_sorted before) [] l.

Record TransferRecommendation := {
  transfer_priority : Priority;
  from_hospital : Hospital;
  from_load : Q;
  to_hospital : Hospital;
  to_slot : nat;
  to_available_beds : Z;
  patients_to_transfer : Z;
  distance_km : Q;
}.

Section LoadBalancer.

(** What the spec names without a formula: the patients a source has
    above the overload threshold, the straight-line distance between two
    hospitals, the proximity bound and the cap of one transfer. *)
Variable surplus : Hospital → Q → Z.
Variable distance : Hospital → Hospital → Q.
Variable max_distance : Q.
Variable transfer_cap : Z.

(** Descending load, then the identifier. *)
Definition more_urgent (a b : Hospital * Q) : bool :=
  match a.2 ?= b.2 with
  | Gt => true
  | Eq => String.leb (id a.1) (id b.1)
  | Lt => false
  end.

(** Descending number of free beds, then the identifier. *)
Definition more_spare (a b : Hospital) : bool :=
  match (available a ?= available b)%Z with
  | Gt => true
  | Eq => String.leb (id a) (id b)
  | Lt => false
  end.

(** The hospitals with a usable signal, each with its load. *)
Definition with_load (ps : list SurgePrediction) (hs : list Hospital)
  : list (Hospital * Q) :=
  omap (λ h, (λ load, (h, load)) <$> load_signal ps h) hs.

Definition has_class (c : HospitalClass) (x : Hospital * Q) : bool :=
  bool_decide (classify_load x.1 x.2 = c).

Definition overloaded (ps : list SurgePrediction) (hs : list Hospital)
  : list (Hospital * Q) :=
  sort_by more_urgent (List.filter (has_class Overloaded) (with_load ps hs)).

Definition underutilized (ps : list SurgePrediction) (hs : list Hospital)
  : list Hospital :=
  sort_by more_spare
    (fst <$> List.filter (has_class Underutilized) (with_load ps hs)).

(** A destination qualifies for a source when it has beds left in this
    run and lies within the proximity bound. *)
Definition eligible (src : Hospital) (d : Hospital * Z) : bool :=
  (0 <? d.2)%Z && Qle_bool (distance src d.1) max_distance.

Definition source_tier (ps : list SurgePrediction) (src : Hospital * Q)
  : RiskTier :=
  match prediction_for ps src.1 with
  | Some p => risk_level p
  | None => risk_tier src.2
  end.

(** The working state of one run: the destinations with their remaining
    beds, and the transfers recommended so far. *)
Definition matching : Type :=
  list (Hospital * Z) * list TransferRecommendation.

(** Modelled from the spec: one step of the matching of section 4.2,
    steps 3 to 7 ([backend/load_balancer.py] is missing): the first
    qualifying destination receives the minimum of the surplus, its
    remaining beds and the cap, and its counter is decreased at once. *)
Definition match_one (ps : list SurgePrediction) (st : matching)
    (src : Hospital * Q) : matching :=
  match find_first (eligible src.1) st.1 with
  | None => st
  | Some (i, (dest, beds)) =>
      let qty := Z.min (surplus src.1 src.2) (Z.min beds transfer_cap) in
      (<[i := (dest, (beds - qty)%Z)]> st.1,
       st.2 ++ [{| transfer_priority :=
                     if bool_decide (source_tier ps src = critical)
                     then urgent else normal;
                   from_hospital := src.1;
                   from_load := src.2;
                   to_hospital := dest;
                   to_slot := i;
                   to_available_beds := beds;
                   patients_to_transfer := qty;
                   distance_km := distance src.1 dest |}])
  end.

Definition initial_matching (ps : list SurgePrediction) (hs : list Hospital)
  : matching :=
  ((λ h, (h, available h)) <$> underutilized ps hs, []).

(** Modelled from the spec: the matching of section 4.2
    ([backend/load_balancer.py] is missing), over the overloaded
    hospitals in their order; [run_matching] keeps the counters of the
    run next to the recommendations, [balance] returns the latter. *)
Definition run_matching (ps : list SurgePrediction) (hs : list Hospital)
  : matching :=
  foldl (match_one ps) (initial_matching ps hs) (overloaded ps hs).

Definition balance (hs : list Hospital) (ps : list SurgePrediction)
  : list TransferRecommendation :=
  (run_matching ps hs).2.

(** The patients committed to the destination in slot [i]. *)
Definition committed (i : nat) (ts : list TransferRecommendation) : Z :=
  foldr Z.add 0%Z
    (patients_to_transfer <$> List.filter (λ t, (to_slot t =? i)%nat) ts).

(** A recommended transfer stays within the surplus of its source, the
    beds its destination had left, and the cap. *)
Definition transfer_ok (t : TransferRecommendation) : Prop :=
  (patients_to_transfer t ≤ surplus (from_hospital t) (from_load t))%Z
  ∧ (patients_to_transfer t ≤ to_available_beds t)%Z
  ∧ (patients_to_transfer t ≤ transfer_cap)%Z.

(** What one run keeps true of its working state, for the destinations
    [ds] it started from: the counters belong to these destinations, none
    is negative, each is the free beds of its hospital less the patients
    committed to it, and every transfer is within its bounds. *)
Definition matching_ok (ds : list Hospital) (st : matching) : Prop :=
  fst <$> st.1 = ds
  ∧ Forall (λ d, (0 ≤ d.2)%Z) st.1
  ∧ snd <$> st.1 = imap (λ i h, (available h - committed i st.2)%Z) ds
  ∧ Forall transfer_ok st.2.

End LoadBalancer.

End Core.

(** ** Sample data *)

Module DashboardSamples.

Import Dashboard.

Definition origin : LatLng := {| lat := Fin 0; lng := Fin 0 |}.

(** A hospital at half of its capacity, and a prediction for it with a
    surge of zero. *)
Definition half_full : Hospital :=
  {| id := "H1"; name := "City Hospital"; type := "general";
     capacity := Fin 100; current_patients := Fin 50; location := origin;
     icu_beds := Fin 10; icu_occupied := Fin 2;
     ventilators := Fin 5; ventilators_in_use := Fin 1 |}.

Definition zero_surge : Prediction :=
  {| hospital_id := "H1"; hospital_name := "City Hospital";
     predicted_surge := Some (Fin 0); risk_level := Some "low";
     surge_factors := Some [] |}.

(** A hospital with no bed and no patient, and one at 96 of 100 beds. *)
Definition no_beds : Hospital :=
  {| id := "H0"; name := "Field Unit"; type := "clinic";
     capacity := Fin 0; current_patients := Fin 0; location := origin;
     icu_beds := Fin 0; icu_occupied := Fin 0;
     ventilators := Fin 0; ventilators_in_use := Fin 0 |}.

Definition nearly_full : Hospital :=
  {| id := "H3"; name := "East Hospital"; type := "general";
     capacity := Fin 100; current_patients := Fin 96; location := origin;
     icu_beds := Fin 10; icu_occupied := Fin 9;
     ventilators := Fin 5; ventilators_in_use := Fin 4 |}.

Definition no_predictions : SurgeData := {| predictions := None |}.

(** A prediction with the two factors pollution and inflow. *)
Definition two_factors : Prediction :=
  {| hospital_id := "H2"; hospital_name := "North Hospital";
     predicted_surge := Some (Fin 88); risk_level := Some "high";
     surge_factors :=
       Some [Str "High pollution (AQI=250)"; Str "Rising patient inflow"] |}.

(** Three predictions out of order. *)
Definition prediction (key : string) (surge : Q) : Prediction :=
  {| hospital_id := key; hospital_name := "Hospital " +:+ key;
     predicted_surge := Some (Fin surge); risk_level := None;
     surge_factors := None |}.

Definition unordered : list Prediction :=
  [prediction "A" 40; prediction "B" 95; prediction "C" 72].

(** [toFixed] on the values below 10^21: the digits of the nearest
    multiple of 10^-f, the larger one on a tie. *)
Definition pad_left (n : nat) (s : string) : string :=
  join EmptyString (replicate (n - String.length s) "0") +:+ s.

Definition fixed_digits (f : nat) (x : number) : string :=
  match x with
  | NaN => "NaN"
  | PosInf => "Infinity"
  | NegInf => "-Infinity"
  | Fin v =>
      let n := Qfloor (Qabs v * inject_Z (10 ^ Z.of_nat f) + (1 # 2)) in
      let m := pad_left (S f) (pretty n) in
      let k := (String.length m - f)%nat in
      (if Qle_bool 0 v then EmptyString else "-")
      +:+ String.substring 0 k m
      +:+ (if (f =? 0)%nat then EmptyString else "." +:+ String.substring k f m)
  end.

(** The text of a number that is an integer. *)
Definition integer_digits (x : number) : string :=
  match x with
  | NaN => "NaN"
  | PosInf => "Infinity"
  | NegInf => "-Infinity"
  | Fin v => pretty (Qfloor v)
  end.

Definition page_with (r : nat) (arr : list Prediction) : page :=
  set_array r arr initMap.

(** The window when the page has loaded, and a reply of [/surge] with
    the three predictions and no summary. *)
Definition loaded : window :=
  {| doc := initMap; overlay := ∅; alerts_shown := []; console := [] |}.

Definition three_predictions : SurgeReply :=
  {| reply_predictions := Some unordered; reply_city_summary := None |}.


Definition sent_twice : list Prediction :=
  [prediction "H1" 40; prediction "B" 95; prediction "H1" 72].

End DashboardSamples.

Module CoreSamples.

Import Core.

(** A hospital with a capacity and a number of patients. *)
Definition ward (key : string) (beds patients : Z) : Hospital :=
  {| id := key; name := "Hospital " +:+ key; capacity := beds;
     current_patients := patients; lat := 0; lng := 0; zone := "Z1" |}.

(** The two hospitals of the example of the specification: A with 95 of
    100 beds taken in a zone with an AQI of 250, B with 30 of 100. *)
Definition two_hospitals : Signals :=
  {| hospitals := [ward "A" 100 95; ward "B" 100 30];
     pollutionByZone := [{| reading_zone := "Z1"; aqi := 250 |}];
     activeEvents := [];
     recentInflowByHospital := λ _, [] |}.

(** A provider that fails on every request. *)
Definition failing_provider : Scorer := ExternalScorer (λ _ _, None).

(** Coefficients for the examples: one point for every ten units of AQI
    above 200, at most 20; the surplus of a source is the part of its
    load above 85, in beds, rounded up. *)
Definition sample_predict : Scorer → Signals → SurgeResult :=
  predict 200 (1 # 10) 20 1 10 3 24 (1 # 5) 10 15.

Definition sample_surplus (h : Hospital) (load : Q) : Z :=
  Qceiling ((load - 85) / 100 * inject_Z (capacity h)).

Definition flat_distance (a b : Hospital) : Q := 0.

End CoreSamples.

(** * Properties *)

(** ** Numbers *)

Section NumberFacts.

Lemma num_geb_le a b : num_geb a b = true ↔ (b ≤ a)%num.
Proof.
  destruct a, b; simpl; try (split; (discriminate || tauto || reflexivity)).
  apply Qle_bool_iff.
Qed.

Lemma num_geb_false a b : a ≠ NaN → b ≠ NaN → num_geb a b = false ↔ (a < b)%num.
Proof.
  intros Ha Hb.
  destruct a, b; simpl; try (split; (discriminate || tauto || reflexivity)).
  rewrite <- not_true_iff_false, Qle_bool_iff.
  split; [apply Qnot_le_lt | apply Qlt_not_le].
Qed.

Lemma num_gtb_lt a b : num_gtb a b = true ↔ (b < a)%num.
Proof.
  destruct a, b; simpl; try (split; (discriminate || tauto || reflexivity)).
  rewrite negb_true_iff, <- not_true_iff_false, Qle_bool_iff.
  split; [apply Qnot_le_lt | apply Qlt_not_le].
Qed.

Lemma num_lt_le a b : (a < b)%num → (a ≤ b)%num.
Proof. destruct a, b; simpl; try tauto. apply Qlt_le_weak. Qed.

Lemma num_lt_not_le a b : (a < b)%num → ¬ (b ≤ a)%num.
Proof. destruct a, b; simpl; try tauto. apply Qlt_not_le. Qed.

Lemma num_le_trans a b c : (a ≤ b)%num → (b ≤ c)%num → (a ≤ c)%num.
Proof. destruct a, b, c; simpl; try tauto. apply Qle_trans. Qed.

Lemma num_le_total a b : a ≠ NaN → b ≠ NaN → (a ≤ b)%num ∨ (b ≤ a)%num.
Proof.
  intros Ha Hb. destruct a, b; simpl; try tauto.
  destruct (Qlt_le_dec q q0) as [H|H]; [left; apply Qlt_le_weak, H | right; exact H].
Qed.

End NumberFacts.

(** ** The dashboard *)

Section RiskLevel.

Import Dashboard.

Lemma Qle_bool_false x y : Qle_bool x y = false ↔ y < x.
Proof.
  rewrite <- not_true_iff_false, Qle_bool_iff.
  split; [apply Qnot_le_lt | apply Qlt_not_le].
Qed.

(** The tier of a finite score, by cases on the three tests. *)
Lemma getRiskLevel_Fin (x : Q) :
  (90 <= x ∧ getRiskLevel (Fin x) = "critical")
  ∨ (70 <= x < 90 ∧ getRiskLevel (Fin x) = "high")
  ∨ (50 <= x < 70 ∧ getRiskLevel (Fin x) = "medium")
  ∨ (x < 50 ∧ getRiskLevel (Fin x) = "low").
Proof.
  unfold getRiskLevel; simpl.
  destruct (Qle_bool 90 x) eqn:H90;
    [left; split; [by apply Qle_bool_iff | done] | right].
  apply Qle_bool_false in H90.
  destruct (Qle_bool 70 x) eqn:H70;
    [left; split; [split; [by apply Qle_bool_iff | done] | done] | right].
  apply Qle_bool_false in H70.
  destruct (Qle_bool 50 x) eqn:H50;
    [left; split; [split; [by apply Qle_bool_iff | done] | done] | right].
  apply Qle_bool_false in H50. done.
Qed.

(** C1.  For every number [s], [getRiskLevel s] is one of the four tiers,
    and it is ['critical'] exactly when [s >= 90], ['high'] exactly when
    [70 <= s < 90], ['medium'] exactly when [50 <= s < 70], and ['low']
    exactly when none of the three holds; the score 90 is ['critical']. *)
Theorem getRiskLevel_thresholds (s : number) :
  getRiskLevel s ∈ ["critical"; "high"; "medium"; "low"]
  ∧ (getRiskLevel s = "critical" ↔ (Fin 90 ≤ s)%num)
  ∧ (getRiskLevel s = "high" ↔ (Fin 70 ≤ s)%num ∧ (s < Fin 90)%num)
  ∧ (getRiskLevel s = "medium" ↔ (Fin 50 ≤ s)%num ∧ (s < Fin 70)%num)
  ∧ (getRiskLevel s = "low" ↔
       ¬ (Fin 90 ≤ s)%num
       ∧ ¬ ((Fin 70 ≤ s)%num ∧ (s < Fin 90)%num)
       ∧ ¬ ((Fin 50 ≤ s)%num ∧ (s < Fin 70)%num))
  ∧ getRiskLevel (Fin 90) = "critical"
  ∧ getRiskLevel (Fin 90) ≠ "high".
Proof.
  split; [| split; [| split; [| split; [| split; [| split]]]]];
    try (vm_compute; congruence).
  - destruct s as [| | |x]; try (vm_compute; set_solver).
    destruct (getRiskLevel_Fin x) as [[_ ->]|[[_ ->]|[[_ ->]|[_ ->]]]];
      set_solver.
  - destruct s as [| | |x]; try (vm_compute; split; (congruence || tauto)).
    simpl.
    destruct (getRiskLevel_Fin x) as [[? ->]|[[? ->]|[[? ->]|[? ->]]]];
      split; try done; intros; exfalso; lra.
  - destruct s as [| | |x]; try (vm_compute; split; (congruence || tauto)).
    simpl.
    destruct (getRiskLevel_Fin x) as [[? ->]|[[? ->]|[[? ->]|[? ->]]]];
      split; try done; intros; exfalso; lra.
  - destruct s as [| | |x]; try (vm_compute; split; (congruence || tauto)).
    simpl.
    destruct (getRiskLevel_Fin x) as [[? ->]|[[? ->]|[[? ->]|[? ->]]]];
      split; try done; intros; exfalso; lra.
  - destruct s as [| | |x]; try (vm_compute; split; (congruence || tauto)).
    simpl.
    destruct (getRiskLevel_Fin x) as [[? ->]|[[? ->]|[[? ->]|[? ->]]]];
      split; try done; intros; try (exfalso; lra).
    repeat split; lra.
Qed.

End RiskLevel.

Section PredictionLookup.

Import Dashboard.

(** [predictionMap] holds, for each key, the last prediction of the array
    that carries it. *)
Lemma predictionMap_fold (m : gmap string Prediction) ps k :
  foldl (λ m p, <[hospital_id p := p]> m) m ps !! k =
  from_option Some (m !! k) (last (filter (λ p, hospital_id p = k) ps)).
Proof.
  revert m. induction ps as [|p ps IH]; intros m; [done|].
  simpl. rewrite IH. rewrite filter_cons.
  destruct (decide (hospital_id p = k)) as [->|Hne].
  - rewrite lookup_insert_eq, last_cons.
    by destruct (last (filter _ ps)).
  - by rewrite lookup_insert_ne.
Qed.

Lemma predictionMap_of_lookup ps k :
  predictionMap_of ps !! k = last (filter (λ p, hospital_id p = k) ps).
Proof.
  unfold predictionMap_of. rewrite predictionMap_fold, lookup_empty.
  by destruct (last _).
Qed.

Lemma predictionMap_of_None ps k :
  predictionMap_of ps !! k = None ↔ Forall (λ p, hospital_id p ≠ k) ps.
Proof.
  rewrite predictionMap_of_lookup, last_None.
  split.
  - intros H. apply Forall_forall. intros p Hp Hk.
    assert (p ∈ filter (λ p, hospital_id p = k) ps) as Hin
      by (apply list_elem_of_filter; done).
    rewrite H in Hin. by apply not_elem_of_nil in Hin.
  - intros H. induction H as [|p ps Hp _ IH]; [done|].
    rewrite filter_cons. by destruct (decide _).
Qed.

Lemma predictionMap_of_Some ps k p :
  predictionMap_of ps !! k = Some p → p ∈ ps ∧ hospital_id p = k.
Proof.
  rewrite predictionMap_of_lookup. intros H.
  assert (p ∈ filter (λ p, hospital_id p = k) ps) as Hin.
  { apply last_Some in H as [l' ->]. set_solver. }
  by apply list_elem_of_filter in Hin as [? ?].
Qed.

(** For each key, [predictionMap] holds the last prediction of the array
    that carries it, and nothing when no prediction does. *)
Lemma predictionMap_last_wins ps k :
  predictionMap_of ps !! k = last (filter (λ p, hospital_id p = k) ps)
  ∧ (predictionMap_of ps !! k = None ↔ Forall (λ p, hospital_id p ≠ k) ps).
Proof. split; [apply predictionMap_of_lookup | apply predictionMap_of_None]. Qed.

(** With a prediction whose [predicted_surge] is a truthy number, the
    load is that number. *)
Lemma hospital_load_predicted ps h p n :
  predictionMap_of ps !! id h = Some p →
  predicted_surge p = Some n →
  num_truthy n = true →
  hospital_load (predictionMap_of ps) h = n.
Proof.
  intros Hp Hn Ht. unfold hospital_load. rewrite Hp. simpl.
  rewrite Hn. simpl. by rewrite Ht.
Qed.

Lemma hospital_riskLevel_predicted ps h p r :
  predictionMap_of ps !! id h = Some p →
  risk_level p = Some r →
  r ≠ EmptyString →
  hospital_riskLevel (predictionMap_of ps) h = r.
Proof.
  intros Hp Hr Hne. unfold hospital_riskLevel. rewrite Hp. simpl.
  rewrite Hr. simpl. unfold str_truthy.
  destruct (String.eqb_spec r EmptyString); [done|done].
Qed.

(** Without a prediction for the hospital, the load is the occupancy
    percentage and the tier is computed from it. *)
Lemma hospital_load_fallback ps h :
  Forall (λ p, hospital_id p ≠ id h) ps →
  hospital_load (predictionMap_of ps) h =
    num_mul (num_div (current_patients h) (capacity h)) (Fin 100)
  ∧ hospital_riskLevel (predictionMap_of ps) h =
    getRiskLevel (num_mul (num_div (current_patients h) (capacity h)) (Fin 100)).
Proof.
  intros H. apply predictionMap_of_None in H.
  unfold hospital_riskLevel, hospital_load. by rewrite H.
Qed.

End PredictionLookup.

Section Factors.

Import Dashboard.

Lemma append_empty (a b : string) :
  a +:+ b = EmptyString ↔ a = EmptyString ∧ b = EmptyString.
Proof.
  split; [|by intros [-> ->]].
  destruct a; simpl; [done | discriminate].
Qed.

Lemma join_empty (fs : list string) :
  join ", " fs = EmptyString ↔ fs = [] ∨ fs = [EmptyString].
Proof.
  destruct fs as [|f [|g r]]; simpl.
  - split; [by left | done].
  - split; [intros ->; by right | intros [?| [= ->]]; done].
  - split; [|intros [?|?]; done].
    intros H. apply append_empty in H as [_ H]. discriminate.
Qed.

Lemma str_truthy_true (s : string) : str_truthy s = true ↔ s ≠ EmptyString.
Proof.
  unfold str_truthy. destruct (String.eqb_spec s EmptyString); simpl; split;
    (done || congruence).
Qed.

(** The factor text is ["Normal"] exactly when joining the factors gives
    the empty text: for no factor at all, and for a single factor whose
    text is empty, like [null] or the empty string. *)
Lemma factors_text_exact (p : Prediction) :
  let texts := element_text <$> default [] (surge_factors p) in
  factors_text p =
    (if bool_decide (texts = [] ∨ texts = [EmptyString]) then "Normal"
     else join ", " texts).
Proof.
  intros texts. unfold factors_text. fold texts.
  destruct (str_truthy (join ", " texts)) eqn:Ht.
  - apply str_truthy_true in Ht. rewrite join_empty in Ht.
    by rewrite bool_decide_eq_false_2.
  - apply not_true_iff_false in Ht. rewrite str_truthy_true in Ht.
    apply dec_stable in Ht. apply join_empty in Ht.
    by rewrite bool_decide_eq_true_2.
Qed.

(** C6.  A prediction without factors, the list absent or empty, has the
    factor text ["Normal"]; a prediction with factors, each of them a
    string that is not empty, has the factors in their order, separated
    by [", "]. *)
Theorem factors_text_rendering (p : Prediction) :
  (default [] (surge_factors p) = [] → factors_text p = "Normal")
  ∧ (default [] (surge_factors p) ≠ [] →
     Forall readable (default [] (surge_factors p)) →
     factors_text p = join ", " (element_text <$> default [] (surge_factors p)))
  ∧ (∀ f, join ", " [f] = f)
  ∧ (∀ f g r, join ", " (f :: g :: r) = f +:+ ", " +:+ join ", " (g :: r)).
Proof.
  split; [|split; [|split; done]].
  - intros Hnil. rewrite factors_text_exact. cbv zeta. rewrite Hnil.
    rewrite bool_decide_eq_true_2; [done|by left].
  - intros Hne Hread. rewrite factors_text_exact. cbv zeta.
    rewrite bool_decide_eq_false_2; [done|].
    destruct (default [] (surge_factors p)) as [|e es]; [done|].
    apply Forall_cons in Hread as [(t & -> & Ht) _].
    rewrite fmap_cons. simpl.
    intros [?|[= ? ?]]; done.
Qed.

(** Outside the data model: a single factor that is [null] or the empty
    string is rendered as ["Normal"]. *)
Example factors_text_blank :
  ∀ e, e = Null ∨ e = Str EmptyString →
  factors_text {| hospital_id := "H1"; hospital_name := "City Hospital";
                  predicted_surge := Some (Fin 40); risk_level := Some "low";
                  surge_factors := Some [e] |} = "Normal".
Proof. intros e [->| ->]; reflexivity. Qed.

End Factors.

Section ZeroSurge.

Import Dashboard DashboardSamples.

(** C3 at a predicted surge of zero.  The prediction exists for the
    hospital, and [updateMap] still takes the occupancy: the load is 50,
    not the predicted 0, next to the tier of the prediction. *)
Theorem hospital_load_zero_surge :
  predictionMap_of [zero_surge] !! id half_full = Some zero_surge
  ∧ predicted_surge zero_surge = Some (Fin 0)
  ∧ hospital_load (predictionMap_of [zero_surge]) half_full
    = Fin (50 / 100 * 100)
  ∧ 50 / 100 * 100 == 50
  ∧ hospital_load (predictionMap_of [zero_surge]) half_full ≠ Fin 0
  ∧ hospital_riskLevel (predictionMap_of [zero_surge]) half_full = "low".
Proof.
  assert (predictionMap_of [zero_surge] !! id half_full = Some zero_surge)
    as Hp by (rewrite predictionMap_of_lookup; reflexivity).
  unfold hospital_riskLevel, hospital_load. rewrite Hp.
  repeat split; try reflexivity. simpl. discriminate.
Qed.

End ZeroSurge.

Section Recommendations.

Import Dashboard.

Variable toFixed : nat → number → string.
Variable num_to_string : number → string.

Lemma has_length_false {A : Type} (x : option (list A)) :
  has_length x = false ↔ default [] x = [].
Proof. destruct x as [[|? ?]|]; simpl; split; done. Qed.

Lemma join_cons_nonempty (f : string) (l : list string) :
  f ≠ EmptyString → join EmptyString (f :: l) ≠ EmptyString.
Proof.
  intros Hf. destruct l as [|g l]; simpl; [done|].
  intros H. by apply append_empty in H as [? _].
Qed.

Lemma tag_nonempty (a b : string) : a ≠ EmptyString → a +:+ b ≠ EmptyString.
Proof. intros Ha H. by apply append_empty in H as [? _]. Qed.

Lemma tag_nonempty_r (a b : string) : b ≠ EmptyString → a +:+ b ≠ EmptyString.
Proof. intros Hb H. by apply append_empty in H as [_ ?]. Qed.

(** The string built by [updateRecommendations] is empty exactly when
    none of the three lists has an element. *)
Lemma recommendations_html_empty (b : BalanceData) :
  recommendations_html toFixed num_to_string b = EmptyString ↔
  has_length (alerts b) = false
  ∧ has_length (transfer_recommendations b) = false
  ∧ has_length (action_items b) = false.
Proof.
  unfold recommendations_html.
  destruct (has_length (action_items b)) eqn:Hi.
  { split; [|intros (_ & _ & ?); done].
    intros H. exfalso. revert H.
    apply tag_nonempty_r, tag_nonempty. discriminate. }
  destruct (has_length (transfer_recommendations b)) eqn:Ht.
  { split; [|intros (_ & ? & _); done].
    intros H. exfalso. revert H.
    apply tag_nonempty_r, tag_nonempty. discriminate. }
  destruct (alerts b) as [[|a l]|] eqn:Ha; simpl; try done.
  split; [|intros (? & _); done].
  intros H. exfalso. revert H.
  apply join_cons_nonempty. discriminate.
Qed.

(** C9.  The badge shows the number of alerts plus the number of transfer
    recommendations, whatever the action items are; the content is the
    all-clear message when the three lists are empty or absent, and the
    cards otherwise. *)
Theorem updateRecommendations_badge (b : BalanceData) (st : page) :
  let st' := updateRecommendations toFixed num_to_string b st in
  elements st' !! "alertCount" =
    Some (pretty (length (default [] (alerts b))
                  + length (default [] (transfer_recommendations b)))%nat)
  ∧ alertCount_of b =
      alertCount_of {| alerts := alerts b;
                       transfer_recommendations := transfer_recommendations b;
                       action_items := None |}
  ∧ elements st' !! "recommendationsContent" =
      Some (if bool_decide (default [] (alerts b) = []
                            ∧ default [] (transfer_recommendations b) = []
                            ∧ default [] (action_items b) = [])
            then all_clear
            else recommendations_html toFixed num_to_string b).
Proof.
  intros st'. split; [|split; [done|]].
  - unfold st', updateRecommendations, set_content; simpl.
    rewrite lookup_insert_ne by done. rewrite lookup_insert_eq.
    unfold alertCount_of.
    by destruct (alerts b), (transfer_recommendations b).
  - unfold st', updateRecommendations, set_content; simpl.
    rewrite lookup_insert_eq. f_equal.
    destruct (str_truthy (recommendations_html toFixed num_to_string b)) eqn:Hs.
    + apply str_truthy_true in Hs.
      rewrite recommendations_html_empty, !has_length_false in Hs.
      by rewrite bool_decide_eq_false_2.
    + apply not_true_iff_false in Hs. rewrite str_truthy_true in Hs.
      apply dec_stable in Hs.
      rewrite recommendations_html_empty, !has_length_false in Hs.
      by rewrite bool_decide_eq_true_2.
Qed.

End Recommendations.

Section SortedCards.

Import Dashboard.

Variable toFixed : nat → number → string.

(** The comparator asks for an exchange exactly when the first surge is
    the lower one. *)
Lemma by_surge_desc_exchange a b :
  numeric_surge a → numeric_surge b →
  num_gtb (by_surge_desc a b) (Fin 0) = true ↔ (surge_of a < surge_of b)%num.
Proof.
  unfold numeric_surge, by_surge_desc, surge_of.
  destruct (to_number (predicted_surge a)) as [| | |x],
           (to_number (predicted_surge b)) as [| | |y];
    intros Ha Hb; simpl; try done.
  rewrite negb_true_iff, Qle_bool_false. split; intros; lra.
Qed.

Lemma insert_by_Permutation {A : Type} (cmp : A → A → number) x l :
  insert_by cmp x l ≡ₚ x :: l.
Proof.
  induction l as [|y r IH]; simpl; [done|].
  destruct (num_gtb _ _); [|done].
  rewrite IH. apply Permutation_swap.
Qed.

Lemma js_sort_Permutation {A : Type} (cmp : A → A → number) l :
  js_sort cmp l ≡ₚ l.
Proof.
  induction l as [|x l IH]; simpl; [done|].
  unfold js_sort in *; simpl. by rewrite insert_by_Permutation, IH.
Qed.

Lemma js_sort_length {A : Type} (cmp : A → A → number) l :
  length (js_sort cmp l) = length l.
Proof. by rewrite js_sort_Permutation. Qed.

Lemma insert_by_sorted x l :
  numeric_surge x → Forall numeric_surge l →
  StronglySorted surge_ge l →
  StronglySorted surge_ge (insert_by by_surge_desc x l).
Proof.
  intros Hx Hl Hs. induction Hs as [|y r Hr IH Hy]; simpl.
  - repeat constructor.
  - apply Forall_cons in Hl as [Hny Hnr].
    destruct (num_gtb (by_surge_desc x y) (Fin 0)) eqn:Hc.
    + apply by_surge_desc_exchange in Hc; [|done..].
      constructor; [by apply IH|].
      rewrite insert_by_Permutation. constructor; [|done].
      by apply num_lt_le.
    + assert (surge_ge x y) as Hxy.
      { destruct (num_le_total (surge_of x) (surge_of y)) as [H|H]; [done..| |done].
        unfold surge_ge.
        apply not_true_iff_false in Hc.
        rewrite by_surge_desc_exchange in Hc by done.
        revert H Hc Hx Hny. unfold numeric_surge.
        destruct (surge_of x), (surge_of y); simpl; try tauto.
        intros. lra. }
      constructor; [by constructor|].
      constructor; [done|].
      eapply Forall_impl; [exact Hy|].
      intros z Hz. unfold surge_ge in *. by eapply num_le_trans.
Qed.

Lemma js_sort_sorted l :
  Forall numeric_surge l → StronglySorted surge_ge (js_sort by_surge_desc l).
Proof.
  induction 1 as [|x l Hx Hl IH]; [constructor|].
  unfold js_sort in *; simpl. apply insert_by_sorted; [done| |done].
  fold (js_sort by_surge_desc l). by rewrite js_sort_Permutation.
Qed.

(** In a sorted list, an element with a strictly higher surge stands at a
    lower position. *)
Lemma sorted_higher_first l i j a b :
  StronglySorted surge_ge l →
  l !! i = Some a → l !! j = Some b →
  (surge_of b < surge_of a)%num → (i < j)%nat.
Proof.
  intros Hs. revert i j. induction Hs as [|x r Hr IH Hx]; intros i j Hi Hj Hlt.
  - by rewrite lookup_nil in Hi.
  - destruct i as [|i], j as [|j]; simpl in *.
    + injection Hi as <-. injection Hj as <-. exfalso. revert Hlt.
      destruct (surge_of x); simpl; try tauto. apply Qlt_irrefl.
    + lia.
    + injection Hj as <-. exfalso.
      assert (surge_ge x a) as Hba.
      { eapply Forall_forall; [exact Hx|]. by eapply list_elem_of_lookup_2. }
      by apply num_lt_not_le in Hlt.
    + apply -> Nat.succ_lt_mono. by eapply IH.
Qed.

Lemma hospital_card_numeric p :
  numeric_surge p → is_Some (hospital_card toFixed p).
Proof.
  unfold numeric_surge, surge_of, hospital_card.
  destruct (predicted_surge p); simpl; [by eexists|done].
Qed.

(** C8.  For a non-empty array of predictions with numeric surges,
    [updateHospitalsList] returns; the array the caller passed holds the
    same predictions afterwards, in non-increasing order of
    [predicted_surge]; the cards are those of the sorted array, in its
    order, so that a prediction with a higher surge has its card before
    one with a lower surge. *)
Theorem updateHospitalsList_sorted (r : nat) (st : page) (arr : list Prediction) :
  arrays st !! r = Some arr →
  arr ≠ [] →
  Forall numeric_surge arr →
  ∃ st' sorted cards,
    updateHospitalsList toFixed r st = Returns st'
    ∧ arrays st' !! r = Some sorted
    ∧ sorted = js_sort by_surge_desc arr
    ∧ sorted ≡ₚ arr
    ∧ StronglySorted surge_ge sorted
    ∧ (∀ i j a b, sorted !! i = Some a → sorted !! j = Some b →
         (surge_of b < surge_of a)%num → (i < j)%nat)
    ∧ Forall2 (λ p c, hospital_card toFixed p = Some c) sorted cards
    ∧ elements st' !! "hospitalsContent" = Some (join EmptyString cards).
Proof.
  intros Harr Hne Hnum.
  pose proof (js_sort_sorted arr Hnum) as Hsorted.
  assert (is_Some (mapM (hospital_card toFixed) (js_sort by_surge_desc arr)))
    as [cards Hcards].
  { apply mapM_is_Some. rewrite js_sort_Permutation.
    eapply Forall_impl; [exact Hnum|]. apply hospital_card_numeric. }
  unfold updateHospitalsList, array_at. rewrite Harr. simpl.
  destruct (length arr =? 0)%nat eqn:Hlen.
  { apply Nat.eqb_eq in Hlen. by destruct arr. }
  rewrite Hcards.
  eexists _, (js_sort by_surge_desc arr), cards.
  split; [reflexivity|]. simpl.
  split; [by rewrite lookup_insert_eq|].
  split; [done|].
  split; [apply js_sort_Permutation|].
  split; [done|].
  split; [intros i j a b; by apply sorted_higher_first|].
  split; [by apply mapM_Some_1|].
  by rewrite lookup_insert_eq.
Qed.

(** The sort is done in the array of the caller whenever the array is not
    empty, also when a card cannot be rendered. *)
Lemma updateHospitalsList_in_place (r : nat) (st : page) (arr : list Prediction) :
  arrays st !! r = Some arr →
  arr ≠ [] →
  arrays (state_of (updateHospitalsList toFixed r st)) !! r
  = Some (js_sort by_surge_desc arr).
Proof.
  intros Harr Hne. unfold updateHospitalsList, array_at. rewrite Harr. simpl.
  destruct (length arr =? 0)%nat eqn:Hlen.
  { apply Nat.eqb_eq in Hlen. by destruct arr. }
  destruct (mapM _ _); simpl; by rewrite lookup_insert_eq.
Qed.

End SortedCards.

Section LayerFacts.

Import Dashboard.

Lemma elem_of_shown kind st i :
  i ∈ shown kind st ↔
  i ∈ on_map st ∧ ∃ l, layers st !! i = Some l ∧ kind l = true.
Proof.
  unfold shown, is_kind. rewrite elem_of_filter.
  destruct (layers st !! i) as [l|]; simpl; naive_solver.
Qed.

Lemma foldl_removeLayer st l :
  foldl (λ s i, removeLayer i s) st l
  = set_on_map (on_map st ∖ list_to_set l) st.
Proof.
  revert st. induction l as [|a l IH]; intros st; simpl.
  - destruct st; unfold set_on_map; simpl. f_equal. set_solver.
  - rewrite IH. unfold removeLayer, set_on_map; simpl. f_equal. set_solver.
Qed.

(** [updateMap] starts by taking every tracked layer off the map and by
    emptying the two arrays. *)
Lemma clear_layers_eq st :
  clear_layers st =
  {| layers := layers st; lastId := lastId st;
     on_map := on_map st ∖ list_to_set (hospitalMarkers st)
                         ∖ list_to_set (surgeCircles st);
     hospitalMarkers := []; surgeCircles := [];
     arrays := arrays st; elements := elements st |}.
Proof.
  unfold clear_layers. rewrite !foldl_removeLayer. reflexivity.
Qed.

Lemma tracked_initMap : tracked initMap.
Proof.
  split; simpl.
  - intros i [l Hl]. destruct (decide (i = 1%nat)) as [->|Hne]; [done|].
    by rewrite lookup_insert_ne, lookup_empty in Hl.
  - intros i Hi. assert (i = 1%nat) as -> by set_solver.
    rewrite lookup_insert_eq. by eexists.
  - apply set_eq. intros i. rewrite elem_of_shown. simpl.
    split; [|set_solver].
    intros [Hi (l & Hl & Hk)]. assert (i = 1%nat) as -> by set_solver.
    rewrite lookup_insert_eq in Hl. by simplify_eq.
  - apply set_eq. intros i. rewrite elem_of_shown. simpl.
    split; [|set_solver].
    intros [Hi (l & Hl & Hk)]. assert (i = 1%nat) as -> by set_solver.
    rewrite lookup_insert_eq in Hl. by simplify_eq.
  - constructor.
  - constructor.
Qed.

(** Only the layers, the counter, the map and the two arrays matter. *)
Lemma tracked_same_layers st st' :
  layers st' = layers st → lastId st' = lastId st → on_map st' = on_map st →
  hospitalMarkers st' = hospitalMarkers st →
  surgeCircles st' = surgeCircles st →
  tracked st → tracked st'.
Proof.
  intros Hl Hn Hm Hh Hs [H1 H2 H3 H4 H5 H6].
  split; unfold shown, is_kind in *; rewrite ?Hl, ?Hn, ?Hm, ?Hh, ?Hs; done.
Qed.

Lemma tracked_clear_layers st : tracked st → tracked (clear_layers st).
Proof.
  intros [H1 H2 H3 H4 H5 H6]. rewrite clear_layers_eq.
  split; simpl; try done.
  - intros i Hi. apply H2. set_solver.
  - apply set_eq. intros i. rewrite elem_of_shown. simpl.
    split; [|set_solver].
    intros [Hi Hl]. exfalso.
    assert (i ∈ shown is_marker st) as Hin
      by (apply elem_of_shown; split; [set_solver|done]).
    rewrite H3 in Hin. set_solver.
  - apply set_eq. intros i. rewrite elem_of_shown. simpl.
    split; [|set_solver].
    intros [Hi Hl]. exfalso.
    assert (i ∈ shown is_circle st) as Hin
      by (apply elem_of_shown; split; [set_solver|done]).
    rewrite H4 in Hin. set_solver.
  - constructor.
  - constructor.
Qed.

(** The radius of the circle is a number exactly when the load is. *)
Lemma radius_is_NaN (load : number) :
  is_NaN (num_add (Fin 800) (num_mul load (Fin 5))) = is_NaN load.
Proof. by destruct load. Qed.

End LayerFacts.

Section MapLayers.

Import Dashboard.

Variable toFixed : nat → number → string.
Variable num_to_string : number → string.

Abbreviation show_hospital := (show_hospital toFixed num_to_string).
Abbreviation add_layers := (add_layers toFixed num_to_string).
Abbreviation marker_for := (marker_for toFixed num_to_string).
Abbreviation updateMap := (updateMap toFixed num_to_string).

(** The body of the loop on a hospital Leaflet accepts, and on one it
    does not: the circle is refused and nothing has changed. *)
Lemma show_hospital_displayable pm st h :
  displayable pm h = true →
  show_hospital pm st h = Returns (add_layers pm st h).
Proof.
  unfold displayable. intros [Hll Hload]%andb_true_iff.
  unfold Dashboard.show_hospital, L_circle, L_marker.
  rewrite radius_is_NaN, Hll, Hload. simpl.
  unfold Dashboard.add_layers, bindPopup, addTo, set_hospitalMarkers,
    set_surgeCircles, set_on_map; simpl.
  do 2 f_equal. rewrite alter_insert_eq. reflexivity.
Qed.

Lemma show_hospital_refused pm st h :
  displayable pm h = false → show_hospital pm st h = Throws st.
Proof.
  unfold displayable. intros Hd.
  unfold Dashboard.show_hospital, L_circle.
  by rewrite radius_is_NaN, Hd.
Qed.

(** The loop shows the hospitals before the first one Leaflet refuses,
    and returns exactly when there is none. *)
Lemma forEach_show_hospital pm hs st :
  state_of (forEach (show_hospital pm) st hs)
    = foldl (add_layers pm) st (displayed pm hs)
  ∧ (forEach (show_hospital pm) st hs
       = Returns (foldl (add_layers pm) st (displayed pm hs))
     ↔ displayed pm hs = hs).
Proof.
  revert st. induction hs as [|h hs IH]; intros st; simpl; [done|].
  unfold displayed in *; simpl.
  destruct (displayable pm h) eqn:Hd.
  - rewrite show_hospital_displayable by done. simpl.
    destruct (IH (add_layers pm st h)) as [IH1 IH2].
    split; [done|]. rewrite IH2. split; [by intros ->|by intros [= ?]].
  - rewrite show_hospital_refused by done. simpl. split; [done|].
    split; [done|discriminate].
Qed.

Lemma tracked_add_layers pm st h :
  tracked st → tracked (add_layers pm st h).
Proof.
  intros [H1 H2 H3 H4 H5 H6]. unfold Dashboard.add_layers.
  assert (∀ i, i ∈ on_map st → (i ≤ lastId st)%nat) as Hle
    by (intros i Hi; by apply H1, H2).
  assert (∀ i, i ∈ hospitalMarkers st → (i ≤ lastId st)%nat) as HleM.
  { intros i Hi. apply Hle.
    assert (i ∈ shown is_marker st) as Hin
      by (rewrite H3; by apply elem_of_list_to_set).
    by apply elem_of_shown in Hin as [? _]. }
  assert (∀ i, i ∈ surgeCircles st → (i ≤ lastId st)%nat) as HleC.
  { intros i Hi. apply Hle.
    assert (i ∈ shown is_circle st) as Hin
      by (rewrite H4; by apply elem_of_list_to_set).
    by apply elem_of_shown in Hin as [? _]. }
  split; simpl.
  - intros i. rewrite !lookup_insert. repeat case_decide; try lia.
    intros Hi. apply H1 in Hi. lia.
  - intros i. rewrite !lookup_insert. repeat case_decide; try done.
    rewrite !elem_of_union, !elem_of_singleton.
    intros [?|[?|?]]; [congruence..|]. by apply H2.
  - apply set_eq. intros i.
    rewrite list_to_set_app_L, elem_of_union, <- H3, !elem_of_shown.
    rewrite elem_of_list_to_set, list_elem_of_singleton. simpl.
    rewrite !elem_of_union, !elem_of_singleton.
    destruct (decide (i = S (S (lastId st)))) as [->|Hmine].
    { split; [by right|]. intros _. split; [tauto|].
      rewrite ?lookup_insert_eq, ?(lookup_insert_ne _ (S (S (lastId st)))) by lia.
      rewrite ?lookup_insert_eq. by eexists. }
    destruct (decide (i = S (lastId st))) as [->|Hother].
    { rewrite ?lookup_insert_eq, ?(lookup_insert_ne _ (S (S (lastId st)))) by lia.
      rewrite ?lookup_insert_eq.
      split.
      - intros [_ (l & Hl & Hk)]. by simplify_eq.
      - intros [[Hi _]|Hi]; [|lia]. apply Hle in Hi. lia. }
    rewrite !lookup_insert_ne by done. tauto.
  - apply set_eq. intros i.
    rewrite list_to_set_app_L, elem_of_union, <- H4, !elem_of_shown.
    rewrite elem_of_list_to_set, list_elem_of_singleton. simpl.
    rewrite !elem_of_union, !elem_of_singleton.
    destruct (decide (i = S (lastId st))) as [->|Hmine].
    { split; [by right|]. intros _. split; [tauto|].
      rewrite ?lookup_insert_eq, ?(lookup_insert_ne _ (S (S (lastId st)))) by lia.
      rewrite ?lookup_insert_eq. by eexists. }
    destruct (decide (i = S (S (lastId st)))) as [->|Hother].
    { rewrite ?lookup_insert_eq, ?(lookup_insert_ne _ (S (S (lastId st)))) by lia.
      rewrite ?lookup_insert_eq.
      split.
      - intros [_ (l & Hl & Hk)]. by simplify_eq.
      - intros [[Hi _]|Hi]; [|lia]. apply Hle in Hi. lia. }
    rewrite !lookup_insert_ne by done. tauto.
  - apply NoDup_app. split; [done|]. split; [|apply NoDup_singleton].
    intros i Hi Hi'. apply HleM in Hi.
    apply list_elem_of_singleton in Hi'. lia.
  - apply NoDup_app. split; [done|]. split; [|apply NoDup_singleton].
    intros i Hi Hi'. apply HleC in Hi.
    apply list_elem_of_singleton in Hi'. lia.
Qed.
Lemma tracked_foldl_show pm hs st :
  tracked st → tracked (foldl (add_layers pm) st hs).
Proof.
  revert st. induction hs as [|h hs IH]; intros st Hst; simpl; [done|].
  by apply IH, tracked_add_layers.
Qed.

(** [updateMap] is the loop over the displayed hospitals, started on the
    cleared page. *)
Lemma updateMap_state hs sd st :
  let pm := predictionMap_of (predictions_of sd st) in
  state_of (updateMap hs sd st)
    = foldl (add_layers pm) (clear_layers st) (displayed pm hs)
  ∧ (updateMap hs sd st = Returns (state_of (updateMap hs sd st))
     ↔ displayed pm hs = hs).
Proof.
  intros pm.
  assert (predictions_of sd (clear_layers st) = predictions_of sd st) as Hpred
    by (by rewrite clear_layers_eq).
  unfold Dashboard.updateMap. cbv zeta. rewrite Hpred. fold pm.
  destruct (forEach_show_hospital pm hs (clear_layers st)) as [H1 H2].
  split; [done|]. by rewrite H1.
Qed.

Lemma tracked_updateMap hs sd st :
  tracked st → tracked (state_of (updateMap hs sd st)).
Proof.
  intros Hst. destruct (updateMap_state hs sd st) as [-> _].
  by apply tracked_foldl_show, tracked_clear_layers.
Qed.

(** Every state of the page keeps the markers and circles of the map in
    the two arrays. *)
Lemma reachable_tracked st :
  reachable toFixed num_to_string st → tracked st.
Proof.
  induction 1 as [|r arr st _ IH|hs sd st _ IH|r st _ IH|b st _ IH
                  |summary st _ IH|now st _ IH].
  - apply tracked_initMap.
  - by eapply tracked_same_layers; [..|exact IH].
  - by apply tracked_updateMap.
  - eapply tracked_same_layers; [..|exact IH];
      unfold updateHospitalsList; cbv zeta;
      destruct (length _ =? 0)%nat; try reflexivity;
      destruct (mapM _ _); reflexivity.
  - by eapply tracked_same_layers; [..|exact IH].
  - by eapply tracked_same_layers; [..|exact IH].
  - by eapply tracked_same_layers; [..|exact IH].
Qed.

(** The arrays after the loop: one stamp more in each for every
    hospital. *)
Lemma foldl_show_length pm hs st :
  length (hospitalMarkers (foldl (add_layers pm) st hs))
    = (length (hospitalMarkers st) + length hs)%nat
  ∧ length (surgeCircles (foldl (add_layers pm) st hs))
    = (length (surgeCircles st) + length hs)%nat.
Proof.
  revert st. induction hs as [|h hs IH]; intros st; simpl; [lia|].
  destruct (IH (add_layers pm st h)) as [-> ->].
  unfold Dashboard.add_layers; simpl. rewrite !length_app; simpl. lia.
Qed.

(** The loop keeps what the arrays and the layers held before it. *)
Lemma foldl_show_keeps pm hs st :
  let st' := foldl (add_layers pm) st hs in
  (lastId st ≤ lastId st')%nat
  ∧ (∀ i, (i ≤ lastId st)%nat → layers st' !! i = layers st !! i)
  ∧ (∀ k, (k < length (surgeCircles st))%nat →
       surgeCircles st' !! k = surgeCircles st !! k)
  ∧ (∀ k, (k < length (hospitalMarkers st))%nat →
       hospitalMarkers st' !! k = hospitalMarkers st !! k).
Proof.
  revert st. induction hs as [|h hs IH]; intros st; simpl; [done|].
  destruct (IH (add_layers pm st h)) as (Hn & Hl & Hc & Hm).
  unfold Dashboard.add_layers in Hn, Hl, Hc, Hm |- *; simpl in *.
  split; [lia|]. split; [|split].
  - intros i Hi. rewrite Hl by lia. rewrite !lookup_insert_ne by lia. done.
  - intros k Hk. rewrite Hc by (rewrite length_app; lia).
    by apply lookup_app_l.
  - intros k Hk. rewrite Hm by (rewrite length_app; lia).
    by apply lookup_app_l.
Qed.

(** The loop adds layers to the map under new stamps only. *)
Lemma foldl_show_on_map pm hs st i :
  i ∈ on_map (foldl (add_layers pm) st hs) →
  i ∈ on_map st ∨ (lastId st < i)%nat.
Proof.
  revert st. induction hs as [|h hs IH]; intros st; simpl; [by left|].
  intros Hi. apply IH in Hi. unfold Dashboard.add_layers in Hi; simpl in Hi.
  rewrite !elem_of_union, !elem_of_singleton in Hi.
  destruct Hi as [[->|[->|Hi]]|Hi]; [right; lia..|by left|right; lia].
Qed.

(** The hospital at position [k] of the list has its circle and its
    marker at position [k] of the part the loop adds to the arrays. *)
Lemma foldl_show_lookup pm hs st k h :
  hs !! k = Some h →
  let st' := foldl (add_layers pm) st hs in
  ∃ c m,
    surgeCircles st' !! (length (surgeCircles st) + k)%nat = Some c
    ∧ layers st' !! c = Some (circle_for pm h)
    ∧ hospitalMarkers st' !! (length (hospitalMarkers st) + k)%nat = Some m
    ∧ layers st' !! m = Some (marker_for pm h).
Proof.
  revert st k. induction hs as [|h0 hs IH]; intros st k Hk; [done|].
  simpl. destruct k as [|k]; simpl in Hk.
  - injection Hk as ->.
    destruct (foldl_show_keeps pm hs (add_layers pm st h)) as (_ & Hl & Hc & Hm).
    unfold Dashboard.add_layers in Hl, Hc, Hm |- *; simpl in *.
    exists (S (lastId st)), (S (S (lastId st))).
    rewrite !Nat.add_0_r.
    rewrite Hc, Hm, !Hl by (rewrite ?length_app; simpl; lia).
    rewrite !list_lookup_middle by done.
    rewrite lookup_insert_eq, lookup_insert_ne, lookup_insert_eq by lia.
    done.
  - destruct (IH (add_layers pm st h0) k Hk) as (c & m & H1 & H2 & H3 & H4).
    unfold Dashboard.add_layers in H1, H2, H3, H4 |- *; simpl in *.
    rewrite !length_app in H1, H3; simpl in *.
    exists c, m.
    replace (length (surgeCircles st) + S k)%nat
      with (length (surgeCircles st) + 1 + k)%nat by lia.
    replace (length (hospitalMarkers st) + S k)%nat
      with (length (hospitalMarkers st) + 1 + k)%nat by lia.
    done.
Qed.

(** When Leaflet accepts every hospital, all of them are shown. *)
Lemma displayed_all pm (hs : list Hospital) :
  Forall (λ h, displayable pm h = true) hs → displayed pm hs = hs.
Proof.
  unfold displayed. induction 1 as [|h hs Hh _ IH]; simpl; [done|].
  by rewrite Hh, IH.
Qed.

(** C10.  In every state of the page, [updateMap] takes the markers and
    circles of the previous call off the map and shows the hospitals of
    the list up to the first one whose coordinates or load are not
    numbers, where Leaflet throws and the call ends.  Afterwards the
    markers on the map are those of the tracking array, each once, one
    for every hospital shown and in the order of the list, and likewise
    the circles: the hospital at position [k] has its circle and its
    marker at position [k].  The call returns exactly when every hospital
    of the list is shown, and then every hospital has one marker and one
    circle. *)
Theorem updateMap_one_marker_one_circle
    (hospitals : list Hospital) (surgeData : SurgeData) (st : page) :
  reachable toFixed num_to_string st →
  let st' := state_of (updateMap hospitals surgeData st) in
  let predictionMap := predictionMap_of (predictions_of surgeData st) in
  let done := displayed predictionMap hospitals in
  (∀ i, i ∈ hospitalMarkers st ∨ i ∈ surgeCircles st → i ∉ on_map st')
  ∧ length (hospitalMarkers st') = length done
  ∧ length (surgeCircles st') = length done
  ∧ NoDup (hospitalMarkers st')
  ∧ NoDup (surgeCircles st')
  ∧ shown is_marker st' = list_to_set (hospitalMarkers st')
  ∧ shown is_circle st' = list_to_set (surgeCircles st')
  ∧ (∀ k hospital, done !! k = Some hospital →
       ∃ circle marker,
         surgeCircles st' !! k = Some circle
         ∧ layers st' !! circle = Some (circle_for predictionMap hospital)
         ∧ hospitalMarkers st' !! k = Some marker
         ∧ layers st' !! marker = Some (marker_for predictionMap hospital))
  ∧ (updateMap hospitals surgeData st = Returns st' ↔ done = hospitals)
  ∧ (Forall (λ h, displayable predictionMap h = true) hospitals →
     done = hospitals).
Proof.
  intros Hreach st' predictionMap done.
  pose proof (reachable_tracked st Hreach) as Hst.
  pose proof (tracked_updateMap hospitals surgeData st Hst) as Hst'.
  fold st' in Hst'. destruct Hst' as [H1 H2 H3 H4 H5 H6].
  destruct (updateMap_state hospitals surgeData st) as [Hfold Hret].
  fold predictionMap st' in Hfold, Hret. fold done in Hfold, Hret.
  pose proof (foldl_show_length predictionMap done (clear_layers st))
    as [HlenM HlenC].
  rewrite <- Hfold in HlenM, HlenC.
  rewrite clear_layers_eq in HlenM, HlenC; simpl in *.
  split; [|split; [done|split; [done|split; [done|split; [done|
    split; [done|split; [done|split; [|split; [done|]]]]]]]]].
  - intros i Hi Hon.
    destruct Hst as [S1 S2 S3 S4 _ _].
    assert (i ∈ shown is_marker st ∨ i ∈ shown is_circle st) as Hin.
    { rewrite S3, S4, !elem_of_list_to_set. exact Hi. }
    assert (i ≤ lastId st)%nat as Hle.
    { apply S1, S2.
      destruct Hin as [Hin|Hin]; by apply elem_of_shown in Hin as [? _]. }
    rewrite Hfold in Hon. apply foldl_show_on_map in Hon.
    rewrite clear_layers_eq in Hon; simpl in Hon.
    destruct Hon as [Hon|Hon]; [|lia].
    rewrite !elem_of_difference, !elem_of_list_to_set in Hon. tauto.
  - intros k hospital Hk.
    destruct (foldl_show_lookup predictionMap done (clear_layers st)
                k hospital Hk) as (c & m & Hc & Hlc & Hm & Hlm).
    rewrite <- Hfold in Hc, Hlc, Hm, Hlm.
    rewrite clear_layers_eq in Hc, Hm; simpl in *.
    by exists c, m.
  - apply displayed_all.
Qed.

(** A hospital Leaflet refuses ends the call: the hospitals before it are
    shown, it and the hospitals after it are not. *)
Lemma updateMap_stops (before after : list Hospital) (h : Hospital)
    (surgeData : SurgeData) (st : page) :
  let predictionMap := predictionMap_of (predictions_of surgeData st) in
  Forall (λ h, displayable predictionMap h = true) before →
  displayable predictionMap h = false →
  displayed predictionMap (before ++ h :: after) = before
  ∧ updateMap (before ++ h :: after) surgeData st
    = Throws (state_of (updateMap before surgeData st)).
Proof.
  intros pm Hbefore Hh.
  assert (∀ l, displayed pm (before ++ h :: l) = before) as Hd.
  { intros l. unfold displayed.
    induction Hbefore as [|b bs Hb _ IH]; simpl; [by rewrite Hh|].
    by rewrite Hb, IH. }
  assert (displayed pm before = before) as Hd' by (by apply displayed_all).
  split; [apply Hd|].
  destruct (updateMap_state (before ++ h :: after) surgeData st) as [Hs Hr].
  destruct (updateMap_state before surgeData st) as [Hs' _].
  fold pm in Hs, Hr, Hs'. rewrite Hd in Hs, Hr. rewrite Hd' in Hs'.
  destruct (updateMap (before ++ h :: after) surgeData st) as [st1|st1] eqn:Ho;
    simpl in *.
  - exfalso. assert (before = before ++ h :: after) as Heq by (by apply Hr).
    apply (f_equal length) in Heq. rewrite length_app in Heq. simpl in Heq. lia.
  - by rewrite Hs, Hs'.
Qed.

End MapLayers.

(** ** The decision core *)

Section Classification.

Import Core.

Lemma Qlt_b_true x y : Qlt_b x y = true ↔ x < y.
Proof. unfold Qlt_b. rewrite negb_true_iff. apply Qle_bool_false. Qed.

Lemma Qlt_b_false x y : Qlt_b x y = false ↔ y <= x.
Proof. unfold Qlt_b. rewrite negb_false_iff. apply Qle_bool_iff. Qed.

(** The occupancy of a hospital whose patients are [k] hundredths of its
    capacity. *)
Lemma occupancy_percent (h : Hospital) (k : Z) :
  (0 < capacity h)%Z →
  (current_patients h * 100 = k * capacity h)%Z →
  occupancy h == inject_Z k.
Proof.
  intros Hcap Heq. unfold occupancy.
  assert (¬ inject_Z (capacity h) == 0) as Hne.
  { unfold Qeq; simpl. lia. }
  assert (inject_Z (current_patients h) * 100 == inject_Z k * inject_Z (capacity h))
    as HQ.
  { change 100 with (inject_Z 100). rewrite <- !inject_Z_mult. by rewrite Heq. }
  apply (Qmult_inj_r _ _ (inject_Z (capacity h)) Hne).
  rewrite <- HQ. field. exact Hne.
Qed.

(** The class of a load, by its position to the two thresholds. *)
Lemma classify_load_cases (h : Hospital) (load : Q) :
  (85 <= load ∧ classify_load h load = Overloaded)
  ∨ (load < 85 ∧ load < 60 ∧ (1 ≤ available h)%Z
     ∧ classify_load h load = Underutilized)
  ∨ (load < 85 ∧ ¬ (load < 60 ∧ (1 ≤ available h)%Z)
     ∧ classify_load h load = Normal).
Proof.
  unfold classify_load, overload_threshold, underuse_threshold.
  destruct (Qle_bool 85 load) eqn:H85.
  { left. by apply Qle_bool_iff in H85. }
  apply Qle_bool_false in H85. right.
  destruct (Qlt_b load 60) eqn:H60; simpl.
  - apply Qlt_b_true in H60.
    destruct (1 <=? available h)%Z eqn:Hav.
    + left. apply Z.leb_le in Hav. done.
    + right. apply Z.leb_gt in Hav. repeat split; try done. intros [_ ?]. lia.
  - apply Qlt_b_false in H60. right. repeat split; try done.
    intros [? _]. lra.
Qed.

(** C2.  Without a prediction, a hospital of positive capacity is
    classified by its occupancy: overloaded exactly from 85% on, and
    underutilized exactly below 60% with a free bed.  At exactly 85% it
    is overloaded, at exactly 59% underutilized, at exactly 60% normal. *)
Theorem classify_boundaries (ps : list SurgePrediction) (h : Hospital) :
  (0 < capacity h)%Z →
  prediction_for ps h = None →
  (classify ps h = Some Overloaded ↔ 85 <= occupancy h)
  ∧ (classify ps h = Some Underutilized ↔
       occupancy h < 60 ∧ (1 ≤ available h)%Z)
  ∧ ((current_patients h * 100 = 85 * capacity h)%Z →
     classify ps h = Some Overloaded)
  ∧ ((current_patients h * 100 = 59 * capacity h)%Z →
     classify ps h = Some Underutilized)
  ∧ ((current_patients h * 100 = 60 * capacity h)%Z → classify ps h = Some Normal).
Proof.
  intros Hcap Hnone.
  assert (classify ps h = Some (classify_load h (occupancy h))) as ->.
  { unfold classify, load_signal. rewrite Hnone.
    destruct (capacity h =? 0)%Z eqn:H0; [apply Z.eqb_eq in H0; lia|done]. }
  split; [|split; [|split; [|split]]].
  - destruct (classify_load_cases h (occupancy h))
      as [[H1 ->]|[(H1 & H2 & H3 & ->)|(H1 & H2 & ->)]];
      split; try done; intros; exfalso; lra.
  - destruct (classify_load_cases h (occupancy h))
      as [[H1 ->]|[(H1 & H2 & H3 & ->)|(H1 & H2 & ->)]];
      split; try done; try (intros [? ?]; exfalso; lra);
      try (intros ?; exfalso; by apply H2).
  - intros Heq. f_equal.
    pose proof (occupancy_percent h _ Hcap Heq) as Hocc.
    destruct (classify_load_cases h (occupancy h))
      as [[H1 ->]|[(H1 & H2 & H3 & ->)|(H1 & H2 & ->)]];
      unfold inject_Z in Hocc; try reflexivity; exfalso; lra.
  - intros Heq. f_equal.
    pose proof (occupancy_percent h _ Hcap Heq) as Hocc.
    destruct (classify_load_cases h (occupancy h))
      as [[H1 ->]|[(H1 & H2 & H3 & ->)|(H1 & H2 & ->)]];
      unfold inject_Z in Hocc; try reflexivity; exfalso; try lra.
    apply H2. split; [lra|]. unfold available. lia.
  - intros Heq. f_equal.
    pose proof (occupancy_percent h _ Hcap Heq) as Hocc.
    destruct (classify_load_cases h (occupancy h))
      as [[H1 ->]|[(H1 & H2 & H3 & ->)|(H1 & H2 & ->)]];
      unfold inject_Z in Hocc; try reflexivity; exfalso; lra.
Qed.

End Classification.

Section Prediction.

Import Core.

Variable aqi_threshold : Z.
Variable pollution_rate pollution_cap : Q.
Variable event_rate event_cap : Q.
Variable recent_hours baseline_hours : nat.
Variable inflow_threshold inflow_rate inflow_cap : Q.

Abbreviation rule_based_score :=
  (rule_based_score aqi_threshold pollution_rate pollution_cap event_rate
     event_cap recent_hours baseline_hours inflow_threshold inflow_rate
     inflow_cap).
Abbreviation adjustments :=
  (adjustments aqi_threshold pollution_rate pollution_cap event_rate
     event_cap recent_hours baseline_hours inflow_threshold inflow_rate
     inflow_cap).
Abbreviation score :=
  (score aqi_threshold pollution_rate pollution_cap event_rate
     event_cap recent_hours baseline_hours inflow_threshold inflow_rate
     inflow_cap).
Abbreviation predict_one :=
  (predict_one aqi_threshold pollution_rate pollution_cap event_rate
     event_cap recent_hours baseline_hours inflow_threshold inflow_rate
     inflow_cap).
Abbreviation predict :=
  (predict aqi_threshold pollution_rate pollution_cap event_rate
     event_cap recent_hours baseline_hours inflow_threshold inflow_rate
     inflow_cap).

Lemma clamp_bounds lo hi x : lo <= hi → lo <= clamp lo hi x <= hi.
Proof.
  intros Hlh. unfold clamp.
  destruct (Qle_bool x lo) eqn:H1; [split; [apply Qle_refl|done]|].
  apply Qle_bool_false in H1.
  destruct (Qle_bool hi x) eqn:H2; [split; [done|apply Qle_refl]|].
  apply Qle_bool_false in H2. split; by apply Qlt_le_weak.
Qed.

Lemma score_bounds scorer s h : 0 <= (score scorer s h).1 <= 100.
Proof.
  unfold Core.score, Core.rule_based_score.
  destruct scorer as [|ask]; simpl; [by apply clamp_bounds|].
  destruct (ask s h); simpl; by apply clamp_bounds.
Qed.

Lemma predict_one_surge scorer s h :
  predicted_surge (predict_one scorer s h) = (score scorer s h).1
  ∧ surge_factors (predict_one scorer s h) = (score scorer s h).2
  ∧ hospital_id (predict_one scorer s h) = id h.
Proof. unfold Core.predict_one. by destruct (score scorer s h). Qed.

(** C4.  Whatever the scoring path, every prediction of a batch has a
    surge between 0 and 100; there is one prediction per hospital; and
    on the rule-based path the surge is the clamped sum of the base
    occupancy term and the adjustments. *)
Theorem predicted_surge_clamped (scorer : Scorer) (s : Signals) :
  Forall (λ p, 0 <= predicted_surge p <= 100) (predictions (predict scorer s))
  ∧ length (predictions (predict scorer s)) = length (hospitals s)
  ∧ Forall2
      (λ h p, predicted_surge p =
                clamp 0 100 (base_term h + Qsum (fst <$> adjustments s h)))
      (hospitals s) (predictions (predict RuleBasedScorer s)).
Proof.
  unfold Core.predict; simpl. split; [|split].
  - apply Forall_fmap, Forall_forall. intros h _.
    destruct (predict_one_surge scorer s h) as [Hp _].
    unfold compose. rewrite Hp. apply score_bounds.
  - by rewrite length_fmap.
  - apply Forall2_fmap_r, Forall_Forall2_diag, Forall_forall. intros h _.
    destruct (predict_one_surge RuleBasedScorer s h) as [Hp _].
    unfold compose. rewrite Hp. reflexivity.
Qed.

Lemma score_rule_based_path scorer s h :
  rule_based_path scorer s → h ∈ hospitals s →
  score scorer s h = score RuleBasedScorer s h.
Proof.
  destruct scorer as [|ask]; simpl; [done|].
  intros Hfail Hh. by rewrite (Hfail h Hh).
Qed.

(** When no provider is configured, or the provider fails for every
    hospital of the call, the result is the rule-based one: the fallback
    leaves no trace of the provider. *)
Lemma predict_falls_back (scorer : Scorer) (s : Signals) :
  rule_based_path scorer s →
  predict scorer s = predict RuleBasedScorer s.
Proof.
  intros Hpath. unfold Core.predict.
  assert (predict_one scorer s <$> hospitals s
          = predict_one RuleBasedScorer s <$> hospitals s) as ->; [|done].
  apply list_fmap_ext. intros i h Hh. unfold Core.predict_one.
  rewrite (score_rule_based_path scorer s h Hpath); [done|].
  by eapply list_elem_of_lookup_2.
Qed.

End Prediction.

Section Matching.

Import Core.

Variable surplus : Hospital → Q → Z.
Variable distance : Hospital → Hospital → Q.
Variable max_distance : Q.
Variable transfer_cap : Z.

Abbreviation match_one := (match_one surplus distance max_distance transfer_cap).
Abbreviation run_matching :=
  (run_matching surplus distance max_distance transfer_cap).
Abbreviation balance := (balance surplus distance max_distance transfer_cap).
Abbreviation matching_ok := (matching_ok surplus transfer_cap).
Abbreviation transfer_ok := (transfer_ok surplus transfer_cap).
Abbreviation eligible := (eligible distance max_distance).

Lemma find_first_Some {A : Type} (f : A → bool) (l : list A) i x :
  find_first f l = Some (i, x) → l !! i = Some x ∧ f x = true.
Proof.
  revert i. induction l as [|y l IH]; intros i; simpl; [done|].
  destruct (f y) eqn:Hy.
  - intros [= <- <-]. done.
  - destruct (find_first f l) as [[j z]|]; simpl; [|done].
    intros [= <- <-]. by apply IH.
Qed.

Lemma insert_sorted_Forall {A : Type} (P : A → Prop) before x (l : list A) :
  P x → Forall P l → Forall P (insert_sorted before x l).
Proof.
  intros Hx Hl. induction Hl as [|y l Hy Hl IH]; simpl; [by constructor|].
  destruct (before x y); repeat constructor; done.
Qed.

Lemma sort_by_Forall {A : Type} (P : A → Prop) before (l : list A) :
  Forall P l → Forall P (sort_by before l).
Proof.
  induction 1 as [|x l Hx Hl IH]; [constructor|].
  unfold sort_by in *; simpl. by apply insert_sorted_Forall.
Qed.

(** A destination of the run has a free bed. *)
Lemma underutilized_available ps hs :
  Forall (λ h, (1 ≤ available h)%Z) (underutilized ps hs).
Proof.
  unfold underutilized. apply sort_by_Forall, Forall_fmap, Forall_forall.
  intros x Hx. apply list_elem_of_In, filter_In in Hx as [_ Hx].
  unfold has_class in Hx. apply bool_decide_eq_true in Hx.
  destruct (classify_load_cases x.1 x.2)
    as [[_ Hc]|[(_ & _ & Hav & _)|(_ & _ & Hc)]]; [congruence|done|congruence].
Qed.

Lemma committed_nil i : committed i [] = 0%Z.
Proof. done. Qed.

Lemma committed_snoc i ts t :
  committed i (ts ++ [t]) =
  (committed i ts + if (to_slot t =? i)%nat then patients_to_transfer t else 0)%Z.
Proof.
  unfold committed. rewrite List.filter_app, fmap_app, foldr_app. simpl.
  generalize (patients_to_transfer <$> List.filter (λ t0, (to_slot t0 =? i)%nat) ts).
  intros l. destruct (to_slot t =? i)%nat; simpl.
  - induction l as [|z l IH]; simpl; lia.
  - induction l as [|z l IH]; simpl; lia.
Qed.

Lemma matching_ok_initial ps hs :
  matching_ok (underutilized ps hs) (initial_matching ps hs).
Proof.
  unfold Core.matching_ok, initial_matching; simpl.
  split; [|split; [|split]].
  - rewrite <- list_fmap_compose. apply list_fmap_id.
  - apply Forall_fmap. eapply Forall_impl; [apply underutilized_available|].
    simpl. intros h Hh. lia.
  - rewrite <- list_fmap_compose. apply list_eq. intros i.
    rewrite list_lookup_fmap, list_lookup_imap. simpl.
    destruct (underutilized ps hs !! i); simpl; [|done].
    f_equal. rewrite committed_nil. lia.
  - constructor.
Qed.

(** One step of the matching keeps the working state in order. *)
Lemma matching_ok_step ps ds st src :
  matching_ok ds st → matching_ok ds (match_one ps st src).
Proof.
  intros (Hds & Hpos & Hrem & Hts). unfold Core.match_one.
  destruct (find_first _ _) as [[i [dest beds]]|] eqn:Hfind; [|done].
  apply find_first_Some in Hfind as [Hi Hel].
  unfold Core.eligible in Hel. apply andb_true_iff in Hel as [Hbeds _].
  apply Z.ltb_lt in Hbeds. simpl in Hbeds.
  set (qty := Z.min (surplus src.1 src.2) (Z.min beds transfer_cap)).
  assert (ds !! i = Some dest) as Hdi.
  { rewrite <- Hds, list_lookup_fmap, Hi. done. }
  assert (beds = available dest - committed i st.2)%Z as Hbeds_eq.
  { assert ((snd <$> st.1) !! i = Some beds) as Hs
      by (by rewrite list_lookup_fmap, Hi).
    rewrite Hrem, list_lookup_imap, Hdi in Hs. simpl in Hs. by injection Hs. }
  split; [|split; [|split]]; simpl.
  - rewrite list_fmap_insert. simpl. rewrite Hds. by apply list_insert_id.
  - apply Forall_insert; [done|]. simpl. lia.
  - apply list_eq. intros j.
    rewrite list_fmap_insert, list_lookup_imap. simpl.
    destruct (decide (i = j)) as [<-|Hne].
    + rewrite list_lookup_insert_eq
        by (rewrite length_fmap; by eapply lookup_lt_Some).
      rewrite Hdi. simpl. f_equal. rewrite committed_snoc. simpl.
      rewrite Nat.eqb_refl. lia.
    + rewrite list_lookup_insert_ne by done.
      rewrite Hrem, list_lookup_imap.
      destruct (ds !! j); simpl; [|done]. f_equal.
      rewrite committed_snoc. simpl.
      destruct (Nat.eqb_spec i j); [done|]. lia.
  - apply Forall_app. split; [done|]. constructor; [|constructor].
    unfold Core.transfer_ok; simpl. lia.
Qed.

Lemma matching_ok_foldl ps ds srcs st :
  matching_ok ds st → matching_ok ds (foldl (match_one ps) st srcs).
Proof.
  revert st. induction srcs as [|src srcs IH]; intros st Hst; simpl; [done|].
  by apply IH, matching_ok_step.
Qed.

(** The beds a transfer found at its destination are never fewer than the
    patients it moves there. *)
Lemma transfer_ok_room t :
  transfer_ok t → (0 ≤ to_available_beds t - patients_to_transfer t)%Z.
Proof. intros (_ & ? & _). lia. Qed.

(** C5.  At every point of a run, that is after any number [n] of
    overloaded hospitals, and at its end: no destination has a negative
    number of remaining beds; the counter of a destination is its free
    beds less all the patients sent to it so far; and no transfer moves
    more patients than the surplus of its source, than the beds left at
    its destination, or than the cap. *)
Theorem matching_never_overcommits
    (ps : list SurgePrediction) (hs : list Hospital) (n : nat) :
  let st := foldl (match_one ps) (initial_matching ps hs)
              (take n (overloaded ps hs)) in
  Forall (λ d, (0 ≤ d.2)%Z) st.1
  ∧ snd <$> st.1 =
      imap (λ i h, (available h - committed i st.2)%Z) (underutilized ps hs)
  ∧ Forall (λ t,
      (patients_to_transfer t ≤ surplus (from_hospital t) (from_load t))%Z
      ∧ (0 ≤ to_available_beds t - patients_to_transfer t)%Z) st.2
  ∧ Forall (λ d, (0 ≤ d.2)%Z) (run_matching ps hs).1
  ∧ Forall (λ t,
      (patients_to_transfer t ≤ surplus (from_hospital t) (from_load t))%Z
      ∧ (0 ≤ to_available_beds t - patients_to_transfer t)%Z)
      (balance hs ps).
Proof.
  intros st.
  pose proof (matching_ok_foldl ps _ (take n (overloaded ps hs)) _
                (matching_ok_initial ps hs)) as (_ & Hpos & Hrem & Hts).
  pose proof (matching_ok_foldl ps _ (overloaded ps hs) _
                (matching_ok_initial ps hs)) as (_ & Hpos' & _ & Hts').
  fold st in Hpos, Hrem, Hts.
  repeat split; try done.
  - eapply Forall_impl; [exact Hts|]. intros t Ht. split; [apply Ht|].
    by apply transfer_ok_room.
  - eapply Forall_impl; [exact Hts'|]. intros t Ht. split; [apply Ht|].
    by apply transfer_ok_room.
Qed.

End Matching.

(** ** Further properties of the dashboard *)

Section ListEdges.

Import Dashboard DashboardSamples.

Variable toFixed : nat → number → string.

(** With an empty array, [updateHospitalsList] writes the count 0 and the
    notice that no data is available, returns, and leaves the store of
    arrays as it is. *)
Lemma updateHospitalsList_empty (r : nat) (st : page) :
  array_at st r = [] →
  ∃ st',
    updateHospitalsList toFixed r st = Returns st'
    ∧ elements st' !! "hospitalCount" = Some "0"
    ∧ elements st' !! "hospitalsContent"
      = Some ("<div class=" +:+ q "loading" +:+ ">No hospital data available</div>")
    ∧ arrays st' = arrays st
    ∧ layers st' = layers st ∧ on_map st' = on_map st.
Proof.
  intros Hnil. unfold updateHospitalsList. rewrite Hnil. simpl.
  eexists. split; [reflexivity|]. simpl.
  rewrite lookup_insert_eq, lookup_insert_ne, lookup_insert_eq by done.
  done.
Qed.


(** A list in the order of the cards is left as it is by the sort. *)
Lemma js_sort_sorted_id (l : list Prediction) :
  Forall numeric_surge l → StronglySorted surge_ge l →
  js_sort by_surge_desc l = l.
Proof.
  intros Hnum Hs. induction Hs as [|x r Hr IH Hx]; [done|].
  apply Forall_cons in Hnum as [Hnx Hnr].
  unfold js_sort in *; simpl. rewrite IH by done.
  destruct r as [|y r']; [done|]. simpl.
  apply Forall_cons in Hx as [Hxy _]. apply Forall_cons in Hnr as [Hny _].
  destruct (num_gtb (by_surge_desc x y) (Fin 0)) eqn:Hc; [|done].
  apply by_surge_desc_exchange in Hc; [|done..].
  by apply num_lt_not_le in Hc.
Qed.

(** Showing the same array a second time changes nothing: the array is
    in order after the first call, and the second call writes the same
    count and the same cards. *)
Lemma updateHospitalsList_again (r : nat) (st : page) (arr : list Prediction) :
  arrays st !! r = Some arr →
  arr ≠ [] →
  Forall numeric_surge arr →
  ∃ st',
    updateHospitalsList toFixed r st = Returns st'
    ∧ updateHospitalsList toFixed r st' = Returns st'.
Proof.
  intros Harr Hne Hnum.
  pose proof (js_sort_sorted arr Hnum) as Hsorted.
  assert (Forall numeric_surge (js_sort by_surge_desc arr)) as Hnum'
    by (by rewrite js_sort_Permutation).
  assert (is_Some (mapM (hospital_card toFixed) (js_sort by_surge_desc arr)))
    as [cards Hcards].
  { apply mapM_is_Some.
    eapply Forall_impl; [exact Hnum'|]. apply hospital_card_numeric. }
  assert ((length arr =? 0)%nat = false) as Hlen.
  { apply Nat.eqb_neq. by destruct arr. }
  unfold updateHospitalsList, array_at. rewrite Harr. simpl.
  rewrite Hlen, Hcards.
  eexists. split; [reflexivity|]. simpl.
  rewrite lookup_insert_eq. simpl.
  rewrite js_sort_length, Hlen.
  rewrite js_sort_sorted_id by done. rewrite Hcards.
  f_equal. unfold set_content, set_array; simpl. f_equal.
  - by rewrite insert_insert_eq.
  - apply map_eq. intros k. rewrite !lookup_insert.
    repeat case_decide; done.
Qed.

End ListEdges.

Section Colours.

Import Dashboard.

(** The colour of a load: red tones from 70 on, amber from 50, green
    below, and never the grey of an unknown tier; a tier the dashboard
    does not know is grey. *)
Lemma getLoadColor_getRiskLevel (s : number) :
  getLoadColor (getRiskLevel s) ∈ ["#dc2626"; "#ef4444"; "#f59e0b"; "#22c55e"]
  ∧ ((Fin 90 ≤ s)%num → getLoadColor (getRiskLevel s) = "#dc2626")
  ∧ ((Fin 70 ≤ s)%num → (s < Fin 90)%num →
     getLoadColor (getRiskLevel s) = "#ef4444")
  ∧ ((Fin 50 ≤ s)%num → (s < Fin 70)%num →
     getLoadColor (getRiskLevel s) = "#f59e0b")
  ∧ (¬ (Fin 50 ≤ s)%num → getLoadColor (getRiskLevel s) = "#22c55e")
  ∧ (∀ riskLevel,
       riskLevel ∉ ["critical"; "high"; "medium"; "low"] →
       getLoadColor riskLevel = "#64748b").
Proof.
  assert (∀ x, (90 <= x ∧ getLoadColor (getRiskLevel (Fin x)) = "#dc2626")
             ∨ (70 <= x < 90 ∧ getLoadColor (getRiskLevel (Fin x)) = "#ef4444")
             ∨ (50 <= x < 70 ∧ getLoadColor (getRiskLevel (Fin x)) = "#f59e0b")
             ∨ (x < 50 ∧ getLoadColor (getRiskLevel (Fin x)) = "#22c55e")) as Hfin.
  { intros x.
    destruct (getRiskLevel_Fin x) as [[? ->]|[[? ->]|[[? ->]|[? ->]]]];
      [left|right; left|right; right; left|right; right; right]; done. }
  split; [|split; [|split; [|split; [|split]]]].
  - destruct s as [| | |x]; try (vm_compute; set_solver).
    destruct (Hfin x) as [[_ ->]|[[_ ->]|[[_ ->]|[_ ->]]]]; set_solver.
  - destruct s as [| | |x]; simpl; try done.
    intros. destruct (Hfin x) as [[? ->]|[[? ->]|[[? ->]|[? ->]]]];
      try done; exfalso; lra.
  - destruct s as [| | |x]; simpl; try done.
    intros. destruct (Hfin x) as [[? ->]|[[? ->]|[[? ->]|[? ->]]]];
      try done; exfalso; lra.
  - destruct s as [| | |x]; simpl; try done.
    intros. destruct (Hfin x) as [[? ->]|[[? ->]|[[? ->]|[? ->]]]];
      try done; exfalso; lra.
  - destruct s as [| | |x]; simpl; try done; try tauto.
    intros. destruct (Hfin x) as [[? ->]|[[? ->]|[[? ->]|[? ->]]]];
      try done; exfalso; lra.
  - intros riskLevel Hnot. unfold getLoadColor.
    destruct (String.eqb_spec riskLevel "critical") as [->|_]; [set_solver|].
    destruct (String.eqb_spec riskLevel "high") as [->|_]; [set_solver|].
    destruct (String.eqb_spec riskLevel "medium") as [->|_]; [set_solver|].
    destruct (String.eqb_spec riskLevel "low") as [->|_]; [set_solver|].
    done.
Qed.

End Colours.

Section MapKeeps.

Import Dashboard.

Variable toFixed : nat → number → string.
Variable num_to_string : number → string.

Abbreviation add_layers := (add_layers toFixed num_to_string).
Abbreviation updateMap := (updateMap toFixed num_to_string).
Abbreviation reachable := (reachable toFixed num_to_string).

Lemma foldl_add_layers_keeps pm hs st :
  let st' := foldl (add_layers pm) st hs in
  elements st' = elements st ∧ arrays st' = arrays st
  ∧ (∀ i, i ∈ on_map st → i ∈ on_map st').
Proof.
  revert st. induction hs as [|h hs IH]; intros st; simpl; [done|].
  destruct (IH (add_layers pm st h)) as (-> & -> & Hon).
  repeat split; try done.
  intros i Hi. apply Hon. unfold Dashboard.add_layers; simpl.
  rewrite !elem_of_union. tauto.
Qed.

(** [updateMap] writes no element and no array of predictions. *)
Lemma updateMap_elements hs sd st :
  elements (state_of (updateMap hs sd st)) = elements st
  ∧ arrays (state_of (updateMap hs sd st)) = arrays st.
Proof.
  destruct (updateMap_state toFixed num_to_string hs sd st) as [-> _].
  destruct (foldl_add_layers_keeps
              (predictionMap_of (predictions_of sd st))
              (displayed (predictionMap_of (predictions_of sd st)) hs)
              (clear_layers st)) as (-> & -> & _).
  by rewrite clear_layers_eq.
Qed.

(** A layer that is neither marker nor circle is not tracked. *)
Lemma tile_not_tracked st i url :
  tracked st → layers st !! i = Some (TileLayer url) →
  (i ∉ hospitalMarkers st) ∧ (i ∉ surgeCircles st).
Proof.
  intros [_ _ S3 S4 _ _] Hl. split; intros Hin.
  - assert (i ∈ shown is_marker st) as Hs
      by (rewrite S3; by apply elem_of_list_to_set).
    apply elem_of_shown in Hs as (_ & l & Hll & Hk).
    rewrite Hl in Hll. by injection Hll as <-.
  - assert (i ∈ shown is_circle st) as Hs
      by (rewrite S4; by apply elem_of_list_to_set).
    apply elem_of_shown in Hs as (_ & l & Hll & Hk).
    rewrite Hl in Hll. by injection Hll as <-.
Qed.

(** In every state of the page the tile layer of [initMap] is on the map
    and is not one of the tracked layers: no refresh takes it off. *)
Lemma tile_layer_stays st :
  reachable st →
  layers st !! 1%nat = Some (TileLayer tile_url)
  ∧ 1%nat ∈ on_map st
  ∧ (1%nat ∉ hospitalMarkers st)
  ∧ (1%nat ∉ surgeCircles st).
Proof.
  intros Hreach.
  assert (layers st !! 1%nat = Some (TileLayer tile_url) ∧ 1%nat ∈ on_map st)
    as [Hl Hon].
  { induction Hreach as [|r arr st _ IH|hs sd st Hreach IH|r st _ IH|b st _ IH
                         |summary st _ IH|now st _ IH]; try done.
    - destruct IH as [Hl Hon].
      pose proof (reachable_tracked toFixed num_to_string st Hreach) as Htr.
      destruct (tile_not_tracked st 1%nat tile_url Htr Hl) as [HnM HnC].
      destruct Htr as [S1 S2 S3 S4 _ _].
      destruct (updateMap_state toFixed num_to_string hs sd st) as [-> _].
      set (pm := predictionMap_of (predictions_of sd st)).
      destruct (foldl_show_keeps toFixed num_to_string pm (displayed pm hs)
                  (clear_layers st)) as (_ & Hkeep & _).
      destruct (foldl_add_layers_keeps pm (displayed pm hs) (clear_layers st))
        as (_ & _ & Hmono).
      split.
      + rewrite Hkeep.
        * rewrite clear_layers_eq; simpl. exact Hl.
        * rewrite clear_layers_eq; simpl. apply S1. by rewrite Hl.
      + apply Hmono. rewrite clear_layers_eq; simpl.
        rewrite !elem_of_difference, !elem_of_list_to_set. done.
    - unfold updateHospitalsList. cbv zeta.
      destruct (length _ =? 0)%nat; [done|]. by destruct (mapM _ _). }
  pose proof (reachable_tracked toFixed num_to_string st Hreach) as Htr.
  destruct (tile_not_tracked st 1%nat tile_url Htr Hl) as [HnM HnC].
  done.
Qed.

End MapKeeps.

Section Loading.

Import Dashboard.

Variable toFixed : nat → number → string.
Variable num_to_string : number → string.

Abbreviation updateMap := (updateMap toFixed num_to_string).
Abbreviation reachable := (reachable toFixed num_to_string).
Abbreviation show_data := (show_data toFixed num_to_string).
Abbreviation loadData := (loadData toFixed num_to_string).
Abbreviation loadBalance := (loadBalance toFixed num_to_string).

(** The predictions [updateMap] reads in [loadData] are those of the
    reply. *)
Lemma predictions_of_new_array arr st :
  predictions_of {| predictions := Some (new_array arr st).1 |}
    (new_array arr st).2 = arr.
Proof.
  unfold predictions_of, new_array, array_at; simpl.
  by rewrite lookup_insert_eq.
Qed.

(** When Leaflet refuses a hospital of the reply, the [try] block ends in
    [updateMap]: no element of the page has been written. *)
Lemma show_data_refused hospitals surgeData now st :
  let pm := predictionMap_of (default [] (reply_predictions surgeData)) in
  displayed pm hospitals ≠ hospitals →
  ∃ st', show_data hospitals surgeData now st = Throws st'
         ∧ elements st' = elements st.
Proof.
  intros pm Hrefused. unfold Dashboard.show_data.
  destruct (reply_predictions surgeData) as [arr|] eqn:Harr; simpl in pm.
  - pose proof (predictions_of_new_array arr st) as Hpred.
    destruct (new_array arr st) as [r st1] eqn:Hnew. simpl in Hpred.
    destruct (updateMap_state toFixed num_to_string hospitals
                {| predictions := Some r |} st1) as [_ Hret].
    destruct (updateMap_elements toFixed num_to_string hospitals
                {| predictions := Some r |} st1) as [Hel _].
    rewrite Hpred in Hret. fold pm in Hret.
    destruct (updateMap hospitals {| predictions := Some r |} st1)
      as [st2|st2] eqn:Ho; simpl in *.
    + exfalso. apply Hrefused, Hret. done.
    + exists st2. split; [done|]. rewrite Hel.
      unfold new_array in Hnew. by injection Hnew as _ <-.
  - destruct (updateMap_state toFixed num_to_string hospitals
                {| predictions := None |} st) as [_ Hret].
    destruct (updateMap_elements toFixed num_to_string hospitals
                {| predictions := None |} st) as [Hel _].
    simpl in Hret. fold pm in Hret.
    destruct (updateMap hospitals {| predictions := None |} st)
      as [st2|st2] eqn:Ho; simpl in *.
    + exfalso. apply Hrefused, Hret. done.
    + by exists st2.
Qed.

(** One hospital Leaflet refuses, and the whole refresh fails: the error
    dialog is shown, the list, the summary and the time keep what they
    showed, and the overlay is hidden again. *)
Lemma loadData_refused hospitals surgeData now w :
  let pm := predictionMap_of (default [] (reply_predictions surgeData)) in
  displayed pm hospitals ≠ hospitals →
  let w' := loadData (Some (hospitals, surgeData)) now w in
  alerts_shown w' = alerts_shown w ++ ["Failed to load hospital data"]
  ∧ console w'
    = console w ++ ["Error loading data:"; "Failed to load hospital data"]
  ∧ elements (doc w') = elements (doc w)
  ∧ "hidden" ∈ overlay w'.
Proof.
  intros pm Hrefused w'.
  destruct (show_data_refused hospitals surgeData now (doc w) Hrefused)
    as (st' & Hthrows & Hel).
  unfold w', Dashboard.loadData. simpl. rewrite Hthrows. simpl.
  rewrite <- app_assoc. repeat split; try done.
  apply elem_of_union_r, elem_of_singleton. done.
Qed.

(** A request that fails leaves the page as it was, shows one dialog with
    the message of the handler, and hides the overlay again. *)
Lemma load_request_failed now w :
  doc (loadData None now w) = doc w
  ∧ alerts_shown (loadData None now w)
    = alerts_shown w ++ ["Failed to load hospital data"]
  ∧ "hidden" ∈ overlay (loadData None now w)
  ∧ doc (loadBalance None now w) = doc w
  ∧ alerts_shown (loadBalance None now w)
    = alerts_shown w ++ ["Failed to load balance recommendations"]
  ∧ "hidden" ∈ overlay (loadBalance None now w).
Proof.
  unfold Dashboard.loadData, Dashboard.loadBalance; simpl.
  repeat split; try done; apply elem_of_union_r, elem_of_singleton; done.
Qed.

(** The handlers of the two buttons keep the page among its states, so
    what holds in every state holds after every load. *)
Lemma load_reachable reply balance now w :
  reachable (doc w) →
  reachable (doc (loadData reply now w))
  ∧ reachable (doc (loadBalance balance now w)).
Proof.
  intros Hreach. split.
  - unfold Dashboard.loadData. simpl.
    destruct reply as [[hospitals surgeData]|]; simpl; [|done].
    assert (reachable (state_of (show_data hospitals surgeData now (doc w))))
      as Hstate.
    { unfold Dashboard.show_data.
      set (start := match reply_predictions surgeData with
                    | Some arr => _
                    | None => _
                    end).
      assert (reachable start.2) as Hstart.
      { unfold start. destruct (reply_predictions surgeData) as [arr|]; simpl;
          [by apply reach_reply|done]. }
      destruct start as [sd st1]. simpl in Hstart.
      pose proof (reach_updateMap toFixed num_to_string hospitals sd st1 Hstart)
        as Hmap.
      destruct (Dashboard.updateMap toFixed num_to_string hospitals sd st1)
        as [st2|st2]; simpl in *; [|done].
      set (list_at := match predictions sd with
                      | Some r => _
                      | None => _
                      end).
      assert (reachable list_at.2) as Hlist.
      { unfold list_at. destruct (predictions sd); simpl;
          [done|by apply reach_reply]. }
      destruct list_at as [r st3]. simpl in Hlist.
      pose proof (reach_updateHospitalsList toFixed num_to_string r st3 Hlist)
        as Hcards.
      destruct (updateHospitalsList toFixed r st3) as [st4|st4]; simpl in *;
        [|done].
      by apply reach_updateLastUpdated, reach_updateSummary. }
    by destruct (show_data hospitals surgeData now (doc w)).
  - unfold Dashboard.loadBalance. simpl.
    destruct balance as [b|]; simpl; [|done].
    by apply reach_updateLastUpdated, reach_updateRecommendations.
Qed.

(** [updateMap] on hospitals Leaflet accepts: it returns, with one
    marker and one circle for each. *)
Lemma updateMap_returns hospitals sd st :
  Forall (λ h, displayable (predictionMap_of (predictions_of sd st)) h = true)
    hospitals →
  ∃ st', updateMap hospitals sd st = Returns st'
         ∧ elements st' = elements st ∧ arrays st' = arrays st
         ∧ length (hospitalMarkers st') = length hospitals
         ∧ length (surgeCircles st') = length hospitals.
Proof.
  intros Hall. apply displayed_all in Hall.
  destruct (updateMap_state toFixed num_to_string hospitals sd st)
    as [Hstate Hret].
  destruct (updateMap_elements toFixed num_to_string hospitals sd st)
    as [Hel Harr].
  rewrite Hall in Hstate, Hret.
  exists (state_of (updateMap hospitals sd st)).
  split; [by apply Hret|]. split; [done|]. split; [done|].
  rewrite Hstate.
  destruct (foldl_show_length toFixed num_to_string
              (predictionMap_of (predictions_of sd st)) hospitals
              (clear_layers st)) as [-> ->].
  by rewrite clear_layers_eq.
Qed.

(** [updateHospitalsList] on predictions with numeric surges: it returns,
    with the count written, and touches no layer. *)
Lemma updateHospitalsList_returns r st :
  Forall numeric_surge (array_at st r) →
  ∃ st', updateHospitalsList toFixed r st = Returns st'
         ∧ elements st' !! "hospitalCount"
           = Some (pretty (length (array_at st r)))
         ∧ hospitalMarkers st' = hospitalMarkers st
         ∧ surgeCircles st' = surgeCircles st.
Proof.
  intros Hnum. unfold updateHospitalsList. cbv zeta.
  destruct (length (array_at st r) =? 0)%nat.
  { eexists. split; [reflexivity|]. simpl.
    by rewrite lookup_insert_ne, lookup_insert_eq. }
  assert (is_Some (mapM (hospital_card toFixed)
                     (js_sort by_surge_desc (array_at st r)))) as [cards ->].
  { apply mapM_is_Some. rewrite js_sort_Permutation.
    eapply Forall_impl; [exact Hnum|]. apply hospital_card_numeric. }
  eexists. split; [reflexivity|]. simpl.
  by rewrite lookup_insert_ne, lookup_insert_eq.
Qed.

(** A reply whose hospitals Leaflet accepts and whose predictions have
    numeric surges is shown in full: no dialog, one marker and one circle
    per hospital, the count of the predictions, the summary and the time,
    and the overlay hidden again. *)
Lemma loadData_shown hospitals surgeData now w :
  let arr := default [] (reply_predictions surgeData) in
  Forall (λ h, displayable (predictionMap_of arr) h = true) hospitals →
  Forall numeric_surge arr →
  let w' := loadData (Some (hospitals, surgeData)) now w in
  alerts_shown w' = alerts_shown w
  ∧ console w' = console w
  ∧ "hidden" ∈ overlay w'
  ∧ length (hospitalMarkers (doc w')) = length hospitals
  ∧ length (surgeCircles (doc w')) = length hospitals
  ∧ elements (doc w') !! "hospitalCount" = Some (pretty (length arr))
  ∧ elements (doc w') !! "summaryContent"
    = Some (summary_html toFixed num_to_string
              (default empty_summary (reply_city_summary surgeData)))
  ∧ elements (doc w') !! "lastUpdated" = Some now.
Proof.
  intros arr Hall Hnum w'.
  assert (∃ st',
    show_data hospitals surgeData now (doc w) = Returns st'
    ∧ length (hospitalMarkers st') = length hospitals
    ∧ length (surgeCircles st') = length hospitals
    ∧ elements st' !! "hospitalCount" = Some (pretty (length arr))
    ∧ elements st' !! "summaryContent"
      = Some (summary_html toFixed num_to_string
                (default empty_summary (reply_city_summary surgeData)))
    ∧ elements st' !! "lastUpdated" = Some now) as (st' & Hret & Hrest).
  { unfold Dashboard.show_data. unfold arr in *.
    destruct (reply_predictions surgeData) as [a|] eqn:Ha; simpl in Hall, Hnum.
    - pose proof (predictions_of_new_array a (doc w)) as Hpred.
      destruct (new_array a (doc w)) as [r st1] eqn:Hnew. simpl in Hpred.
      destruct (updateMap_returns hospitals {| predictions := Some r |} st1)
        as (st2 & -> & Hel2 & Harr2 & HM & HC); [by rewrite Hpred|].
      simpl.
      assert (array_at st2 r = a) as Hat.
      { unfold array_at. rewrite Harr2. exact Hpred. }
      destruct (updateHospitalsList_returns r st2)
        as (st3 & -> & Hcount & HM3 & HC3); [by rewrite Hat|].
      eexists. split; [reflexivity|]. simpl.
      rewrite HM3, HC3, HM, HC, <- Hat.
      rewrite lookup_insert_eq.
      rewrite !lookup_insert_ne by done. rewrite lookup_insert_eq. done.
    - destruct (updateMap_returns hospitals {| predictions := None |} (doc w))
        as (st2 & -> & Hel2 & Harr2 & HM & HC); [done|].
      simpl.
      set (r := fresh (dom (arrays st2))).
      assert (array_at (set_array r [] st2) r = []) as Hat
        by (unfold array_at; simpl; by rewrite lookup_insert_eq).
      destruct (updateHospitalsList_returns r (set_array r [] st2))
        as (st3 & -> & Hcount & HM3 & HC3); [by rewrite Hat|].
      eexists. split; [reflexivity|]. simpl.
      rewrite HM3, HC3. simpl. rewrite HM, HC.
      rewrite lookup_insert_eq.
      rewrite !lookup_insert_ne by done. rewrite lookup_insert_eq.
      rewrite Hat in Hcount. done. }
  unfold w', Dashboard.loadData. simpl. rewrite Hret. simpl.
  destruct Hrest as (? & ? & ? & ? & ?).
  repeat split; try done.
  apply elem_of_union_r, elem_of_singleton. done.
Qed.

End Loading.

(** ** The properties at concrete inputs *)

Section Instances.

Import Dashboard DashboardSamples Core CoreSamples.

(** Three predictions out of order are sorted in the array of the caller
    and rendered in that order. *)
Lemma updateHospitalsList_sorted_witness :
  ∃ st' sorted cards,
    updateHospitalsList fixed_digits 0 (page_with 0 unordered) = Returns st'
    ∧ arrays st' !! 0%nat = Some sorted
    ∧ sorted = js_sort by_surge_desc unordered
    ∧ sorted ≡ₚ unordered
    ∧ StronglySorted surge_ge sorted
    ∧ (∀ i j a b, sorted !! i = Some a → sorted !! j = Some b →
         (surge_of b < surge_of a)%num → (i < j)%nat)
    ∧ Forall2 (λ p c, hospital_card fixed_digits p = Some c) sorted cards
    ∧ elements st' !! "hospitalsContent" = Some (join EmptyString cards).
Proof.
  apply (updateHospitalsList_sorted fixed_digits 0 (page_with 0 unordered)
           unordered).
  - reflexivity.
  - discriminate.
  - repeat constructor; discriminate.
Defined.

(** A refresh with one hospital, after a refresh with two: the four
    layers of the first are off the map, and one marker and one circle
    are left. *)
Lemma updateMap_one_marker_one_circle_witness :
  let st := state_of (updateMap fixed_digits integer_digits
                        [half_full; nearly_full] no_predictions initMap) in
  let st' := state_of (updateMap fixed_digits integer_digits
                         [half_full] no_predictions st) in
  hospitalMarkers st = [3; 5]%nat ∧ surgeCircles st = [2; 4]%nat
  ∧ (∀ i, i ∈ hospitalMarkers st ∨ i ∈ surgeCircles st → i ∉ on_map st')
  ∧ length (hospitalMarkers st') = 1%nat
  ∧ length (surgeCircles st') = 1%nat
  ∧ shown is_marker st' = list_to_set (hospitalMarkers st').
Proof.
  intros st st'.
  pose proof (updateMap_one_marker_one_circle fixed_digits integer_digits
                [half_full] no_predictions st
                (reach_updateMap fixed_digits integer_digits
                   [half_full; nearly_full] no_predictions initMap
                   (reach_initMap fixed_digits integer_digits)))
    as (Hoff & HM & HC & _ & _ & Hshown & _).
  split; [reflexivity|]. split; [reflexivity|].
  split; [exact Hoff|]. split; [exact HM|]. split; [exact HC|exact Hshown].
Defined.

(** C10, as the claim has it, fails: a hospital without beds and without
    patients has the load 0/0, Leaflet refuses its circle, and the call
    ends with no marker for it nor for the hospital after it. *)
Lemma updateMap_not_every_hospital :
  ¬ (∀ (hospitals : list Dashboard.Hospital) (surgeData : SurgeData)
       (st : page),
       reachable fixed_digits integer_digits st →
       length (hospitalMarkers
                 (state_of (updateMap fixed_digits integer_digits
                              hospitals surgeData st)))
       = length hospitals).
Proof.
  intros H.
  specialize (H [no_beds; half_full] no_predictions initMap
                (reach_initMap fixed_digits integer_digits)).
  vm_compute in H. discriminate.
Qed.

(** The same call, step by step: the load of the first hospital is not a
    number, and the call throws with the map as [initMap] left it. *)
Example updateMap_no_beds :
  hospital_load ∅ no_beds = NaN
  ∧ updateMap fixed_digits integer_digits [no_beds; half_full]
      no_predictions initMap = Throws initMap.
Proof. split; reflexivity. Qed.

(** Two factors are rendered in their order. *)
Lemma factors_text_rendering_witness :
  factors_text two_factors = "High pollution (AQI=250), Rising patient inflow".
Proof.
  destruct (factors_text_rendering two_factors) as (_ & H & _).
  apply H.
  - discriminate.
  - repeat constructor; eexists; (split; [reflexivity | discriminate]).
Defined.

(** The three boundaries on hospitals of 100 beds. *)
Lemma classify_boundaries_witness :
  classify [] (ward "A" 100 85) = Some Overloaded
  ∧ classify [] (ward "A" 100 59) = Some Underutilized
  ∧ classify [] (ward "A" 100 60) = Some Normal.
Proof.
  split; [|split].
  - destruct (classify_boundaries [] (ward "A" 100 85)) as (_ & _ & H & _ & _);
      [simpl; lia | reflexivity | exact (H eq_refl)].
  - destruct (classify_boundaries [] (ward "A" 100 59)) as (_ & _ & _ & H & _);
      [simpl; lia | reflexivity | exact (H eq_refl)].
  - destruct (classify_boundaries [] (ward "A" 100 60)) as (_ & _ & _ & _ & H);
      [simpl; lia | reflexivity | exact (H eq_refl)].
Defined.

(** A provider that always fails gives what no provider gives. *)
Example failing_provider_falls_back :
  sample_predict failing_provider two_hospitals
  = sample_predict RuleBasedScorer two_hospitals.
Proof.
  apply (predict_falls_back 200 (1 # 10) 20 1 10 3 24 (1 # 5) 10 15
           failing_provider two_hospitals).
  intros h _. reflexivity.
Qed.

(** The example of the specification: A is critical with a pollution
    factor, B has no factor, and the balancer moves patients from A to B,
    within the surplus of A and the 70 free beds of B. *)
Example two_hospitals_prediction :
  (λ p, (Core.hospital_id p, Core.risk_level p, Core.surge_factors p))
    <$> Core.predictions (sample_predict RuleBasedScorer two_hospitals)
  = [("A", critical, ["High pollution (AQI=250)"]); ("B", low, ["High pollution (AQI=250)"])].
Proof. vm_compute. reflexivity. Qed.

Example two_hospitals_transfer :
  (λ t, (Core.id (Core.from_hospital t), Core.id (Core.to_hospital t),
         Core.patients_to_transfer t, to_available_beds t))
    <$> balance sample_surplus flat_distance 50 20
          (hospitals two_hospitals)
          (Core.predictions (sample_predict RuleBasedScorer two_hospitals))
  = [("A", "B", 15%Z, 70%Z)].
Proof. vm_compute. reflexivity. Qed.

(** The sorted order and the card of the most loaded hospital. *)
Example unordered_sorted :
  Dashboard.hospital_id <$> js_sort by_surge_desc unordered = ["B"; "C"; "A"].
Proof. reflexivity. Qed.

Example toFixed_examples :
  fixed_digits 0 (Fin 95) = "95"
  ∧ fixed_digits 1 (Fin (625 # 10)) = "62.5"
  ∧ fixed_digits 0 (Fin (5 # 2)) = "3"
  ∧ fixed_digits 1 (Fin (1 # 20)) = "0.1"
  ∧ fixed_digits 1 NaN = "NaN".
Proof. vm_compute. repeat split. Qed.

(** Of two predictions for one hospital the later one is read. *)
Example sent_twice_last :
  predictionMap_of sent_twice !! "H1" = Some (prediction "H1" 72)
  ∧ predictionMap_of sent_twice !! "Z" = None.
Proof. rewrite !predictionMap_of_lookup. split; reflexivity. Qed.

Lemma hospital_load_predicted_witness :
  hospital_load (predictionMap_of sent_twice) half_full = Fin 72.
Proof.
  apply (hospital_load_predicted sent_twice half_full (prediction "H1" 72)).
  - rewrite predictionMap_of_lookup. reflexivity.
  - reflexivity.
  - reflexivity.
Defined.

Lemma hospital_load_fallback_witness :
  hospital_load (predictionMap_of unordered) half_full
    = num_mul (num_div (Fin 50) (Fin 100)) (Fin 100)
  ∧ hospital_riskLevel (predictionMap_of unordered) half_full
    = getRiskLevel (num_mul (num_div (Fin 50) (Fin 100)) (Fin 100)).
Proof.
  apply (hospital_load_fallback unordered half_full).
  repeat constructor; discriminate.
Defined.

Lemma updateHospitalsList_empty_witness :
  ∃ st',
    updateHospitalsList fixed_digits 0 (page_with 0 []) = Returns st'
    ∧ elements st' !! "hospitalCount" = Some "0"
    ∧ elements st' !! "hospitalsContent"
      = Some ("<div class=" +:+ q "loading" +:+ ">No hospital data available</div>")
    ∧ arrays st' = arrays (page_with 0 [])
    ∧ layers st' = layers (page_with 0 [])
    ∧ on_map st' = on_map (page_with 0 []).
Proof.
  apply (updateHospitalsList_empty fixed_digits 0 (page_with 0 [])).
  reflexivity.
Defined.


Lemma updateHospitalsList_again_witness :
  ∃ st',
    updateHospitalsList fixed_digits 0 (page_with 0 unordered) = Returns st'
    ∧ updateHospitalsList fixed_digits 0 st' = Returns st'.
Proof.
  apply (updateHospitalsList_again fixed_digits 0 (page_with 0 unordered)
           unordered).
  - reflexivity.
  - discriminate.
  - repeat constructor; discriminate.
Defined.

Lemma updateMap_stops_witness :
  displayed (predictionMap_of (predictions_of no_predictions initMap))
    ([half_full] ++ no_beds :: [nearly_full]) = [half_full]
  ∧ updateMap fixed_digits integer_digits
      ([half_full] ++ no_beds :: [nearly_full]) no_predictions initMap
    = Throws (state_of (updateMap fixed_digits integer_digits [half_full]
                          no_predictions initMap)).
Proof.
  apply (updateMap_stops fixed_digits integer_digits [half_full] [nearly_full]
           no_beds no_predictions initMap).
  - repeat constructor.
  - reflexivity.
Defined.

Lemma tile_layer_stays_witness :
  let st := state_of (updateMap fixed_digits integer_digits [half_full]
                        no_predictions
                        (state_of (updateMap fixed_digits integer_digits
                                     [half_full; nearly_full] no_predictions
                                     initMap))) in
  layers st !! 1%nat = Some (TileLayer tile_url)
  ∧ 1%nat ∈ on_map st
  ∧ (1%nat ∉ hospitalMarkers st)
  ∧ (1%nat ∉ surgeCircles st).
Proof.
  apply (tile_layer_stays fixed_digits integer_digits).
  apply reach_updateMap, reach_updateMap, reach_initMap.
Defined.

Lemma loadData_refused_witness :
  let w' := loadData fixed_digits integer_digits
              (Some ([no_beds; half_full], three_predictions)) "12:00" loaded in
  alerts_shown w' = alerts_shown loaded ++ ["Failed to load hospital data"]
  ∧ console w'
    = console loaded ++ ["Error loading data:"; "Failed to load hospital data"]
  ∧ elements (doc w') = elements (doc loaded)
  ∧ "hidden" ∈ overlay w'.
Proof.
  apply (loadData_refused fixed_digits integer_digits [no_beds; half_full]
           three_predictions "12:00" loaded).
  intros H. vm_compute in H. discriminate.
Defined.

Lemma load_reachable_witness :
  reachable fixed_digits integer_digits
    (doc (loadData fixed_digits integer_digits
            (Some ([half_full], three_predictions)) "12:00" loaded))
  ∧ reachable fixed_digits integer_digits
      (doc (loadBalance fixed_digits integer_digits None "12:00" loaded)).
Proof.
  apply (load_reachable fixed_digits integer_digits
           (Some ([half_full], three_predictions)) None "12:00" loaded).
  apply reach_initMap.
Defined.

Lemma loadData_shown_witness :
  let w' := loadData fixed_digits integer_digits
              (Some ([half_full; nearly_full], three_predictions)) "12:00"
              loaded in
  alerts_shown w' = alerts_shown loaded
  ∧ console w' = console loaded
  ∧ "hidden" ∈ overlay w'
  ∧ length (hospitalMarkers (doc w')) = 2%nat
  ∧ length (surgeCircles (doc w')) = 2%nat
  ∧ elements (doc w') !! "hospitalCount" = Some (pretty 3%nat)
  ∧ elements (doc w') !! "summaryContent"
    = Some (summary_html fixed_digits integer_digits empty_summary)
  ∧ elements (doc w') !! "lastUpdated" = Some "12:00".
Proof.
  apply (loadData_shown fixed_digits integer_digits [half_full; nearly_full]
           three_predictions "12:00" loaded).
  - repeat constructor.
  - repeat constructor; discriminate.
Defined.

End Instances.
